(** * The decorator layer of the DDS command-line client

    A shallow embedding of [cli_code/cli_decorators.py]: the decorators
    [checksum_verification_required], [verify_proceed], [update_status],
    [connect_cloud], [subpath_required] and [removal_spinner], and the
    properties of the upload/download status pipeline they implement;
    and of [DataLister.sort_projects] of [dds_cli/data_lister.py].

    Conventions of the embedding.
    - A Python call either returns a value or raises: [result A].  A method
      that works on [self] is a function from the object's state to the
      state it leaves behind and a [result]: the state survives a raise,
      as the mutated object does in Python.
    - A decorator is a function from the wrapped function to the wrapper;
      [func.__name__] is passed next to [func].
    - The [LOG.*] calls change neither a value nor the state and are left
      out.
    - [hashlib.sha256] is the SHA-256 of FIPS 180-4, written byte by byte
      as the incremental interface is used ([update], [hexdigest]). *)

From Stdlib Require Import Strings.Byte Strings.Ascii.
From Stdlib Require OrderedTypeEx.
From stdpp Require Import gmap strings list sorting.

Local Open Scope Z_scope.

(** ** Python values and effects *)

Module Py.

(** The exception classes the decorators raise, catch or let through.
    Each carries what [str(err)] renders, [KeyError] the missing key.
    [ChecksumError] is the class of [cli_code.dds_exceptions]; it is not
    a subclass of [ValueError]. *)
Inductive exn : Type :=
| KeyError (key : string)
| TypeError (msg : string)
| ValueError (msg : string)
| ChecksumError (msg : string)
| Boto3Error (msg : string)
| BotoCoreError (msg : string)
| OSError (msg : string)
| Exception (msg : string).

(** [str(err)] *)
Definition str (e : exn) : string :=
  match e with
  | KeyError key => "'" +:+ key +:+ "'"
  | TypeError msg | ValueError msg | ChecksumError msg | Boto3Error msg
  | BotoCoreError msg | OSError msg | Exception msg => msg
  end.

Inductive result (A : Type) : Type :=
| Return (a : A)
| Raise (e : exn).
Arguments Return {A} a.
Arguments Raise {A} e.

Definition result_map {A B} (f : A → B) (r : result A) : result B :=
  match r with
  | Return a => Return (f a)
  | Raise e => Raise e
  end.

(** A method of an object with state [S]. *)
Definition M (S A : Type) : Type := S → S * result A.

Definition ret {S A} (a : A) : M S A := λ s, (s, Return a).
Definition raise {S A} (e : exn) : M S A := λ s, (s, Raise e).
Definition bind {S A B} (m : M S A) (k : A → M S B) : M S B :=
  λ s, match m s with
       | (s', Return a) => k a s'
       | (s', Raise e) => (s', Raise e)
       end.
Definition get {S} : M S S := λ s, (s, Return s).
Definition modify {S} (f : S → S) : M S unit := λ s, (f s, Return tt).

(** [d[key]] on a dict: the value, or [KeyError]. *)
Definition subscript {S V} (d : gmap string V) (key : string) : M S V :=
  match d !! key with
  | Some v => ret v
  | None => raise (KeyError key)
  end.

End Py.

Export Py.

Notation "'do' x <- m ; k" := (Py.bind m (λ x, k))
  (at level 10, x name, m at level 100, k at level 200,
   format "'[v' 'do'  x  <-  m ; '/' k ']'").
Notation "'do_' m ; k" := (Py.bind m (λ _, k))
  (at level 10, m at level 100, k at level 200,
   format "'[v' 'do_'  m ; '/' k ']'").

(** ** hashlib.sha256 *)

Module SHA256.

Definition wrap32 (x : Z) : Z := x mod 2 ^ 32.
Definition add32 (x y : Z) : Z := wrap32 (x + y).
Definition rotr (n x : Z) : Z :=
  Z.lor (Z.shiftr x n) (wrap32 (Z.shiftl x (32 - n))).
Definition not32 (x : Z) : Z := Z.lxor x (2 ^ 32 - 1).
Definition xor3 (x y z : Z) : Z := Z.lxor (Z.lxor x y) z.

Definition Ch (x y z : Z) : Z := Z.lxor (Z.land x y) (Z.land (not32 x) z).
Definition Maj (x y z : Z) : Z :=
  xor3 (Z.land x y) (Z.land x z) (Z.land y z).
Definition Sum0 (x : Z) : Z := xor3 (rotr 2 x) (rotr 13 x) (rotr 22 x).
Definition Sum1 (x : Z) : Z := xor3 (rotr 6 x) (rotr 11 x) (rotr 25 x).
Definition sig0 (x : Z) : Z := xor3 (rotr 7 x) (rotr 18 x) (Z.shiftr x 3).
Definition sig1 (x : Z) : Z := xor3 (rotr 17 x) (rotr 19 x) (Z.shiftr x 10).

(** The round constants are the first 32 bits of the fractional parts of
    the cube roots of the first 64 primes, the initial state those of the
    square roots of the first 8. *)
Definition primes : list Z :=
  [2; 3; 5; 7; 11; 13; 17; 19; 23; 29; 31; 37; 41; 43; 47; 53; 59; 61; 67;
   71; 73; 79; 83; 89; 97; 101; 103; 107; 109; 113; 127; 131; 137; 139;
   149; 151; 157; 163; 167; 173; 179; 181; 191; 193; 197; 199; 211; 223;
   227; 229; 233; 239; 241; 251; 257; 263; 269; 271; 277; 281; 283; 293;
   307; 311].

(** Integer cube root, bit by bit from bit [i - 1] down. *)
Fixpoint cbrt_bits (i : nat) (n r : Z) : Z :=
  match i with
  | O => r
  | S j =>
      let c := r + 2 ^ Z.of_nat j in
      cbrt_bits j n (if c * c * c <=? n then c else r)
  end.
Definition cbrt (n : Z) : Z := cbrt_bits 48 n 0.

Definition K : list Z :=
  Eval vm_compute in map (λ p, wrap32 (cbrt (p * 2 ^ 96))) primes.
Definition H0 : list Z :=
  Eval vm_compute in map (λ p, wrap32 (Z.sqrt (p * 2 ^ 64))) (take 8 primes).

(** Big-endian 32-bit words of a block of bytes. *)
Fixpoint words (bs : list Z) : list Z :=
  match bs with
  | a :: b :: c :: d :: rest =>
      (((a * 256 + b) * 256 + c) * 256 + d) :: words rest
  | _ => []
  end.

(** The message schedule, most recent word first. *)
Definition schedule_step (w : list Z) : list Z :=
  add32 (add32 (sig1 (nth 1 w 0)) (nth 6 w 0))
        (add32 (sig0 (nth 14 w 0)) (nth 15 w 0)) :: w.
Definition schedule (block : list Z) : list Z :=
  rev (Nat.iter 48 schedule_step (rev (words block))).

Definition round (v : list Z) (kw : Z * Z) : list Z :=
  match v with
  | [a; b; c; d; e; f; g; h] =>
      let t1 := add32 (add32 (add32 h (Sum1 e)) (Ch e f g))
                      (add32 (fst kw) (snd kw)) in
      let t2 := add32 (Sum0 a) (Maj a b c) in
      [add32 t1 t2; a; b; c; add32 d t1; e; f; g]
  | _ => v
  end.

Definition compress (H : list Z) (block : list Z) : list Z :=
  zip_with add32 H (fold_left round (zip K (schedule block)) H).

(** The hash object: chaining value, bytes of the unfinished block, and
    the number of bytes taken so far. *)
Record hasher : Type := { state : list Z; pending : list Z; count : Z }.

(** [hashlib.sha256()] *)
Definition new : hasher := {| state := H0; pending := []; count := 0 |}.

Definition update_byte (h : hasher) (b : Z) : hasher :=
  let buf := pending h ++ [b] in
  if (length buf =? 64)%nat
  then {| state := compress (state h) buf; pending := []; count := count h + 1 |}
  else {| state := state h; pending := buf; count := count h + 1 |}.

(** [checksum.update(chunk)] *)
Definition update (h : hasher) (chunk : list byte) : hasher :=
  fold_left update_byte (map (λ b, Z.of_N (Byte.to_N b)) chunk) h.

Definition be64 (n : Z) : list Z :=
  map (λ i, (Z.shiftr n (8 * i)) mod 256) [7; 6; 5; 4; 3; 2; 1; 0].

Definition padding (len : Z) : list Z :=
  128 :: repeat 0 (Z.to_nat ((55 - len) mod 64)) ++ be64 (8 * len).

Definition finish (h : hasher) : list Z :=
  state (fold_left update_byte (padding (count h)) h).

Definition hex_digit (n : Z) : ascii :=
  nth (Z.to_nat n) (String.list_ascii_of_string "0123456789abcdef") "0"%char.

Definition hex32 (w : Z) : string :=
  String.string_of_list_ascii
    (map (λ i, hex_digit (Z.shiftr w (4 * i) mod 16)) [7; 6; 5; 4; 3; 2; 1; 0]).

(** [checksum.hexdigest()]: 64 lowercase hexadecimal digits. *)
Definition hexdigest (h : hasher) : string :=
  fold_right String.append "" (map hex32 (finish h)).

End SHA256.

(** ** checksum_verification_required *)

Module checksum_verification_required.

(** What iterating over the value [func] returned does: it ends, hands
    out a chunk, or raises.  The decorator is for functions whose chunk
    sequence is finite. *)
Inductive chunks : Type :=
| Stop
| Yield (chunk : list byte) (rest : chunks)
| Throw (e : exn).

(** [for chunk in chunks: checksum.update(chunk)] *)
Fixpoint feed (checksum : SHA256.hasher) (cs : chunks) : result SHA256.hasher :=
  match cs with
  | Stop => Return checksum
  | Yield chunk rest => feed (SHA256.update checksum chunk) rest
  | Throw e => Raise e
  end.

Section Decorator.
Context {Args : Type} (func : Args → result chunks).

(** The body of the outer [try], from [done, message = (False, "")]:
    the values of [done] and [message] when it ends, or what it
    raises. *)
Definition try_body (correct_checksum : string) (args : Args)
    (do_verify : bool) : result (bool * string) :=
  let done := false in
  let message := "" in
  match func args with
  | Raise e => Raise e
  | Return chunks =>
      if do_verify then
        match feed SHA256.new chunks with
        | Raise (ValueError _ as cs_err) => Return (done, str cs_err)
        | Raise e => Raise e
        | Return checksum =>
            let checksum_digest := SHA256.hexdigest checksum in
            if negb (String.eqb checksum_digest correct_checksum)
            then Return (done, "Checksum verification failed. File compromised.")
            else Return (true, message)
        end
      else Return (done, message)
  end.

(** [except ChecksumError] keeps [done = False]; the [else] of the
    outer [try] runs whenever its body raised nothing and sets
    [done = True]. *)
Definition verify_checksum (correct_checksum : string) (args : Args)
    (do_verify : bool) : result (bool * string) :=
  match try_body correct_checksum args do_verify with
  | Raise (ChecksumError _ as err) => Return (false, str err)
  | Raise e => Raise e
  | Return (_, message) => Return (true, message)
  end.

End Decorator.

End checksum_verification_required.

(** ** The status of the files, as [verify_proceed] and [update_status] use it *)

Module Status.

(** [self.status[file][name]], a dict with the keys [started], [done]. *)
Record SubOp : Type := { op_started : bool; op_done : bool }.

(** [self.status[file]]: the keys [cancel], [started], [message],
    [failed_op], and one key per operation.  The dict is made where the
    files are registered, with the four flags in it; the keys of the
    operations are those of [ops]. *)
Record FileRecord : Type := {
  cancel : bool;
  started : bool;
  message : string;
  failed_op : option string;
  ops : gmap string SubOp
}.

(** The attributes of [self] the two decorators read and write. *)
Record Handler : Type := {
  stop_doing : bool;
  break_on_fail : bool;
  status : gmap string FileRecord
}.

Definition set_status (f : gmap string FileRecord → gmap string FileRecord)
    (self : Handler) : Handler :=
  {| stop_doing := stop_doing self; break_on_fail := break_on_fail self;
     status := f (status self) |}.

Definition set_started (b : bool) (r : FileRecord) : FileRecord :=
  {| cancel := cancel r; started := b; message := message r;
     failed_op := failed_op r; ops := ops r |}.

(** [.update({"cancel": True, "message": message})] *)
Definition update_cancel (msg : string) (r : FileRecord) : FileRecord :=
  {| cancel := true; started := started r; message := msg;
     failed_op := failed_op r; ops := ops r |}.

Definition set_failed_op (name : string) (r : FileRecord) : FileRecord :=
  {| cancel := cancel r; started := started r; message := message r;
     failed_op := Some name; ops := ops r |}.

Definition set_ops (f : gmap string SubOp → gmap string SubOp)
    (r : FileRecord) : FileRecord :=
  {| cancel := cancel r; started := started r; message := message r;
     failed_op := failed_op r; ops := f (ops r) |}.

(** [.update({"started": True})] and [.update({"done": True})] *)
Definition update_started (o : SubOp) : SubOp :=
  {| op_started := true; op_done := op_done o |}.
Definition update_done (o : SubOp) : SubOp :=
  {| op_started := op_started o; op_done := true |}.

(** A write through [self.status[file]]: [KeyError] without the file. *)
Definition on_file (file : string) (f : FileRecord → FileRecord) : M Handler unit :=
  do self <- get;
  do r <- subscript (status self) file;
  modify (set_status <[file := f r]>).

(** A write through [self.status[file][name]]. *)
Definition on_op (file name : string) (f : SubOp → SubOp) : M Handler unit :=
  do self <- get;
  do r <- subscript (status self) file;
  do o <- subscript (ops r) name;
  modify (set_status <[file := set_ops <[name := f o]> r]>).

End Status.

Export Status.

(** ** verify_proceed *)

Module verify_proceed.

Definition cancel_message (file : string) : string :=
  "Cancelling upload due to file '" +:+ file +:+ "'. "
  +:+ "Break-on-fail specified in call.".

(** The list comprehension of the break-on-fail branch: every [x] of
    [self.status] that is neither cancelled nor started and is not [file]
    gets [cancel] and the message.  Each step writes the record of its
    own [x] only, so what the conditions read is not changed on the
    way. *)
Definition cancel_others (file msg : string)
    (st : gmap string FileRecord) : gmap string FileRecord :=
  map_imap (λ x r,
    Some (if negb (cancel r) && negb (started r) && negb (bool_decide (x = file))
          then update_cancel msg r else r)) st.

Definition wrapped (func : string → M Handler (bool * string))
    (file : string) : M Handler bool :=
  do self <- get;
  if stop_doing self then ret false else
  do r <- subscript (status self) file;
  if cancel r then ret false else
  do_ on_file file (set_started true);
  do res <- func file;
  let '(ok_to_proceed, message) := res in
  if negb ok_to_proceed then
    do_ on_file file (update_cancel message);
    do self <- get;
    if break_on_fail self then
      do_ modify (set_status (cancel_others file (cancel_message file)));
      ret ok_to_proceed
    else ret ok_to_proceed
  else ret ok_to_proceed.

End verify_proceed.

(** ** update_status *)

Module update_status.

Definition whitelist : list string := ["put"; "add_file_db"; "get"; "update_db"].

(** [name] is [func.__name__]; [func] returns [ok_to_continue], [message]
    and any number of further values, which [*_] drops.  Past the first
    test [name] is one of the four, not a flag, so
    [func.__name__ not in self.status[file]] asks for a key of [ops]. *)
Definition wrapped {X : Type} (name : string)
    (func : string → M Handler (bool * string * list X))
    (file : string) : M Handler (bool * string) :=
  if negb (bool_decide (name ∈ whitelist)) then
    raise (Exception ("The function " +:+ name
                      +:+ " cannot be used with this decorator."))
  else
  do self <- get;
  do r <- subscript (status self) file;
  if negb (bool_decide (is_Some (ops r !! name))) then
    raise (Exception ("No status found for function " +:+ name +:+ "."))
  else
  do_ on_op file name update_started;
  do res <- func file;
  let '(ok_to_continue, message, _) := res in
  if negb ok_to_continue then
    do_ on_file file (set_failed_op name);
    ret (ok_to_continue, message)
  else
    do_ on_op file name update_done;
    ret (ok_to_continue, message).

End update_status.

(** ** connect_cloud *)

Module connect_cloud.

Section Decorator.
Context {Session Resource : Type}.

(** boto3 as far as [init_resource] calls it: [boto3.session.Session()]
    and [session.resource(service_name="s3", endpoint_url=...,
    aws_access_key_id=..., aws_secret_access_key=...)]. *)
Record boto3 : Type := {
  new_session : result Session;
  resource_of : Session → option string → string → string → result Resource
}.

(** The attributes of [self]; [None] is Python's [None]. *)
Record Connector : Type := {
  url : option string;
  keys : option (gmap string string);
  message : string;
  resource : option Resource
}.

Definition set_resource (r : Resource) (self : Connector) : Connector :=
  {| url := url self; keys := keys self; message := message self;
     resource := Some r |}.

(** [self.url, self.keys, self.message = (None, None, ...)] *)
Definition disconnect (msg : string) (self : Connector) : Connector :=
  {| url := None; keys := None; message := msg; resource := resource self |}.

Definition connection_failed (err : exn) : string :=
  "S3 connection failed: " +:+ str err.

(** [self.keys[key]]: subscripting [None] is a [TypeError]. *)
Definition key_of (self : Connector) (key : string) : M Connector string :=
  match keys self with
  | None => raise (TypeError "'NoneType' object is not subscriptable")
  | Some ks => subscript ks key
  end.

Variable boto : boto3.

(** The body of the [try]. *)
Definition try_body : M Connector unit :=
  do self <- get;
  do session <- (λ s, (s, new_session boto));
  do access_key <- key_of self "access_key";
  do secret_key <- key_of self "secret_key";
  do r <- (λ s, (s, resource_of boto session (url self) access_key secret_key));
  modify (set_resource r).

(** The wrapper returns what [func] returns, and nothing ([None]) on
    the [except] path, which ends without a [return]. *)
Definition init_resource {Args V : Type} (func : Args → M Connector V)
    (args : Args) : M Connector (option V) :=
  λ self,
    match try_body self with
    | (self', Raise (Boto3Error _ as err))
    | (self', Raise (BotoCoreError _ as err)) =>
        (disconnect (connection_failed err) self', Return None)
    | (self', Raise e) => (self', Raise e)
    | (self', Return _) =>
        let '(self'', r) := func args self' in (self'', result_map Some r)
    end.

End Decorator.

Arguments boto3 : clear implicits.
Arguments Connector : clear implicits.

End connect_cloud.

(** ** subpath_required *)

Module subpath_required.

(** pathlib and the file system behind it, as far as [check_and_create]
    uses them: [pathlib.Path(s)], [a / b], [p.exists()], which answers
    or raises (an [OSError] other than that of a missing path goes
    through it), and [p.mkdir(parents=True, exist_ok=True)], which
    returns or raises and leaves a file system behind.  After a [mkdir]
    that returned, [exists()] answers [True]. *)
Class Pathlib (Path FS : Type) : Type := {
  path_of : string → Path;
  truediv : Path → Path → Path;
  path_exists : Path → FS → result bool;
  mkdir : Path → FS → FS * result unit;
  mkdir_exists : ∀ p fs fs',
    mkdir p fs = (fs', Return tt) → path_exists p fs' = Return true
}.

Section Decorator.
Context {Path FS : Type} {pathlib : Pathlib Path FS}.

(** [self.filehandler] *)
Record FileHandler : Type := {
  data : gmap string (gmap string string);
  local_destination : Path
}.

(** The object and the file system it works on. *)
Record World : Type := { filehandler : FileHandler; fs : FS }.

Definition set_fs (fs' : FS) (w : World) : World :=
  {| filehandler := filehandler w; fs := fs' |}.

(** [self.filehandler.local_destination / pathlib.Path(file_info["subpath"])] *)
Definition full_subpath_of (file : string) : M World Path :=
  do w <- get;
  do file_info <- subscript (data (filehandler w)) file;
  do subpath <- subscript file_info "subpath";
  ret (truediv (local_destination (filehandler w)) (path_of subpath)).

(** The wrapper returns [(False, str(err))] of its own ([inl]) or what
    [func] returns ([inr]).  [exists()] is called outside the [try]:
    what it raises goes on. *)
Definition check_and_create {V : Type} (func : string → M World V)
    (file : string) : M World (bool * string + V) :=
  do full_subpath <- full_subpath_of file;
  do there <- (λ w, (w, path_exists full_subpath (fs w)));
  if negb there then
    λ w, match mkdir full_subpath (fs w) with
         | (fs', Raise (OSError _ as err)) =>
             (set_fs fs' w, Return (inl (false, str err)))
         | (fs', Raise e) => (set_fs fs' w, Raise e)
         | (fs', Return _) =>
             let '(w', r) := func file (set_fs fs' w) in (w', result_map inr r)
         end
  else
    λ w, let '(w', r) := func file w in (w', result_map inr r).

End Decorator.

Arguments FileHandler : clear implicits.
Arguments World : clear implicits.

End subpath_required.


(** ** removal_spinner *)

Module removal_spinner.

(** What the terminal is sent: the progress display is started by
    [with Progress(...)] and stopped when the block is left, by its end
    or by a raise; a task is added to it and removed; a message is
    printed by the console. *)
Inductive event : Type :=
| Start
| AddTask (description : string)
| RemoveTask
| Stop
| Print (message : string).

(** [self.project], and the terminal with the latest event last. *)
Record Remover : Type := { project : string; shown : list event }.

Definition emit (e : event) (self : Remover) : Remover :=
  {| project := project self; shown := shown self ++ [e] |}.

(** The wrapper ends by returning [None], by an exception of the wrapped
    function, or by reading a local variable that was never bound. *)
Inductive ending : Type :=
| ReturnsNone
| Raised (e : exn)
| UnboundLocalError (variable : string).

(** The [if] / [elif] chain on [func.__name__]; it has no [else]. *)
Definition description_of (name : string) (self : Remover) : option string :=
  if bool_decide (name = "remove_all")
  then Some ("Removing all files in project " +:+ project self +:+ "...")
  else if bool_decide (name = "remove_file") then Some "Removing file(s)..."
  else if bool_decide (name = "remove_folder") then Some "Removing folder(s)..."
  else None.

Definition create_and_remove_task {Args : Type} (name : string)
    (func : Args → M Remover string) (args : Args)
    : Remover → Remover * ending :=
  λ self,
    let self := emit Start self in
    match description_of name self with
    | None => (emit Stop self, UnboundLocalError "description")
    | Some description =>
        match func args (emit (AddTask description) self) with
        | (self', Raise e) => (emit Stop self', Raised e)
        | (self', Return message) =>
            (emit (Print message) (emit Stop (emit RemoveTask self')),
             ReturnsNone)
        end
    end.

End removal_spinner.

(** ** data_lister: sorting the projects *)

Module data_lister.

(** The values of a project as far as they are modelled: [None], a
    string or a whole number.  A string stands for its UTF-8 bytes, on
    which the order of the bytes is the order of the code points.  The
    other values JSON has (fractions, booleans, lists, objects) are not
    modelled: what is proved of [sort_projects] is proved of projects
    with values of these three kinds. *)
Inductive value : Type :=
| VNone
| VStr (s : string)
| VInt (n : Z).

#[export] Instance value_eq_dec : EqDecision value.
Proof. solve_decision. Defined.

(** What the functions of the lister raise: a missing key, and the
    [TypeError] of [<] between operands that have no order. *)
Inductive raised : Type :=
| KeyError (key : string)
| TypeError.

Inductive outcome (A : Type) : Type :=
| Returns (a : A)
| Raises (e : raised).
Arguments Returns {A} a.
Arguments Raises {A} e.

(** [d[key]] *)
Definition getitem (d : gmap string value) (key : string) : outcome value :=
  match d !! key with
  | Some v => Returns v
  | None => Raises (KeyError key)
  end.

(** [a < b] on values: strings by their characters, numbers by size,
    and none ([TypeError]) for anything else. *)
Definition lt_value (a b : value) : option bool :=
  match a, b with
  | VStr s, VStr t => Some (String.ltb s t)
  | VInt m, VInt n => Some (m <? n)
  | _, _ => None
  end.

(** [a < b] on the pairs [(t[c] is None, t[c])]: the first components
    that differ ([==]) decide, [False] before [True]. *)
Definition lt_tuple (a b : bool * value) : option bool :=
  if bool_decide (a.1 = b.1) then
    if bool_decide (a.2 = b.2) then Some false else lt_value a.2 b.2
  else Some (negb a.1 && b.1).

Section sorted.
Context {A K : Type} (lt : K → K → option bool).

(** The keys of the elements, in order; the first raise ends it. *)
Fixpoint keys_of (key : A → outcome K) (l : list A) : outcome (list K) :=
  match l with
  | [] => Returns []
  | x :: rest =>
      match key x with
      | Raises e => Raises e
      | Returns k =>
          match keys_of key rest with
          | Raises e => Raises e
          | Returns ks => Returns (k :: ks)
          end
      end
  end.

(** Every two of the keys have an order. *)
Fixpoint comparable (ks : list K) : bool :=
  match ks with
  | [] => true
  | k :: rest =>
      forallb (λ k', bool_decide (is_Some (lt k k'))
                     && bool_decide (is_Some (lt k' k))) rest
      && comparable rest
  end.

(** A stable sort that asks [<] only. *)
Fixpoint insert (x : K * A) (l : list (K * A)) : list (K * A) :=
  match l with
  | [] => [x]
  | y :: rest =>
      if bool_decide (lt y.1 x.1 = Some true) then y :: insert x rest
      else x :: l
  end.
Definition stable_sort (l : list (K * A)) : list (K * A) := foldr insert [] l.

(** [sorted(l, key=key, reverse=reverse)].  The keys are computed first.
    A sort by comparisons has compared every two neighbours of its
    result, so it raised [TypeError] when two of the keys have no order
    and there are at least two elements; else the result is that of
    every stable sort.  With [reverse] the list is reversed, sorted and
    reversed again, which keeps equal elements in their order. *)
Definition sorted (l : list A) (key : A → outcome K) (reverse : bool)
    : outcome (list A) :=
  match keys_of key l with
  | Raises e => Raises e
  | Returns ks =>
      if comparable ks then
        let pairs := zip ks l in
        Returns (map snd (if reverse then rev (stable_sort (rev pairs))
                          else stable_sort pairs))
      else Raises TypeError
  end.

End sorted.

(** [str.lower()] on the letters A to Z.  The options below are in
    these letters and have no [k], the one letter a character outside
    ASCII lowers to, so a string lowers to an option here exactly when
    it does in Python. *)
Definition lower_ascii (c : ascii) : ascii :=
  let n := nat_of_ascii c in
  if (65 <=? n)%nat && (n <=? 90)%nat then ascii_of_nat (n + 32) else c.
Fixpoint lower (s : string) : string :=
  match s with
  | EmptyString => EmptyString
  | String c rest => String (lower_ascii c) (lower rest)
  end.

Definition sorting_dict : gmap string string :=
  list_to_map
    [("id", "Project ID"); ("title", "Title"); ("pi", "PI");
     ("status", "Status"); ("updated", "Last updated"); ("size", "Size");
     ("usage", "GBHours"); ("cost", "Cost")].

(** [(t[sort_by] is None, t[sort_by])] *)
Definition column_key (column : string) (t : gmap string value)
    : outcome (bool * value) :=
  match getitem t column with
  | Raises e => Raises e
  | Returns v => Returns (bool_decide (v = VNone), v)
  end.

(** [self.show_usage] is the one attribute the method reads. *)
Definition sort_projects (show_usage : bool) (projects : list (gmap string value))
    (sort_by : string) : outcome (list (gmap string value)) :=
  let sort_by := lower sort_by in
  let sort_by :=
    if bool_decide (sort_by ∈ ["usage"; "cost"]) && negb show_usage
    then "updated" else sort_by in
  match sorted lt_value projects (λ i, getitem i "Project ID") false with
  | Raises e => Raises e
  | Returns sorted_projects =>
      match sorting_dict !! sort_by with
      | Some column =>
          if bool_decide (column ≠ "") then
            sorted lt_tuple sorted_projects (column_key column)
              (bool_decide (Some column = sorting_dict !! "updated"))
          else Returns sorted_projects
      | None => Returns sorted_projects
      end
  end.

End data_lister.

(** * Vocabulary of the properties *)

Section ChecksumVocabulary.
Import checksum_verification_required.

(** A [str] as [bytes], one byte per character. *)
Definition bytes_of_string (s : string) : list byte :=
  map byte_of_ascii (String.list_ascii_of_string s).

(** The iterator that hands out the chunks of a list and ends. *)
Fixpoint yield_all (l : list (list byte)) : chunks :=
  match l with
  | [] => Stop
  | chunk :: rest => Yield chunk (yield_all rest)
  end.

(** Two outcomes of the inner call that differ in the chunks at most. *)
Definition same_outcome (r1 r2 : result chunks) : Prop :=
  match r1, r2 with
  | Return _, Return _ => True
  | Raise e1, Raise e2 => e1 = e2
  | _, _ => False
  end.

(** What the wrapper does without verification, written without the
    hash: the iterator is not touched. *)
Definition unverified (r : result chunks) : result (bool * string) :=
  match r with
  | Return _ => Return (true, "")
  | Raise (ChecksumError msg) => Return (false, msg)
  | Raise e => Raise e
  end.

End ChecksumVocabulary.

Section StatusVocabulary.

(** A record as the orchestrator registers it for an upload: all flags
    false, no message, one entry per operation. *)
Definition new_op : SubOp := {| op_started := false; op_done := false |}.
Definition new_record : FileRecord :=
  {| cancel := false; started := false; message := ""; failed_op := None;
     ops := list_to_map [("put", new_op); ("add_file_db", new_op)] |}.
Definition new_handler (break : bool) (files : list string) : Handler :=
  {| stop_doing := false; break_on_fail := break;
     status := list_to_map (map (λ f, (f, new_record)) files) |}.

(** A wrapped function that returns [(ok, message)] and leaves [self] as
    it is. *)
Definition returning {A : Type} (res : A) : string → M Handler A :=
  λ _, ret res.

(** What [verify_proceed] hands to [func]: [self] with [file] started. *)
Definition with_started (file : string) (r : FileRecord) (self : Handler) : Handler :=
  set_status <[file := set_started true r]> self.

Context {X : Type}.

(** One invocation of a function decorated with [update_status]. *)
Record attempt : Type := {
  att_name : string;
  att_file : string;
  att_func : string → M Handler (bool * string * list X)
}.

(** The invocations of a list, in order; a raise ends the run. *)
Fixpoint run_attempts (l : list attempt) : M Handler (list (bool * string)) :=
  match l with
  | [] => ret []
  | a :: rest =>
      do out <- update_status.wrapped (att_name a) (att_func a) (att_file a);
      do outs <- run_attempts rest;
      ret (out :: outs)
  end.

(** [self.status[file]["failed_op"]], when the file has a record. *)
Definition failed_op_of (self : Handler) (file : string) : option (option string) :=
  failed_op <$> status self !! file.

(** The wrapped function does not write [failed_op] itself. *)
Definition keeps_failed_op (func : string → M Handler (bool * string * list X)) : Prop :=
  ∀ file self self' r x,
    func file self = (self', r) → failed_op_of self' x = failed_op_of self x.

(** An attempt with what it returned is a failure on [file]. *)
Definition failed_on (file : string) (entry : attempt * (bool * string)) : Prop :=
  att_file entry.1 = file ∧ entry.2.1 = false.

(** The name of the last attempt of the log that failed on [file], [cur]
    when there is none. *)
Fixpoint last_failure (file : string) (log : list (attempt * (bool * string)))
    (cur : option string) : option string :=
  match log with
  | [] => cur
  | (a, (ok, _)) :: rest =>
      last_failure file rest
        (if bool_decide (att_file a = file) && negb ok then Some (att_name a) else cur)
  end.

(** Whether the last attempt of the log on [file] failed, [cur] when the
    log has none on [file]. *)
Fixpoint last_attempt_failed (file : string) (log : list (attempt * (bool * string)))
    (cur : bool) : bool :=
  match log with
  | [] => cur
  | (a, (ok, _)) :: rest =>
      last_attempt_failed file rest
        (if bool_decide (att_file a = file) then negb ok else cur)
  end.

(** C3 as the specification words it: after a run, [failed_op] of a file
    is set exactly when the most recent attempt on the file failed. *)
Definition failed_op_iff_last_attempt_failed : Prop :=
  ∀ (l : list attempt) self self' outs file r r',
    Forall (λ a, keeps_failed_op (att_func a)) l →
    status self !! file = Some r → failed_op r = None →
    run_attempts l self = (self', Return outs) →
    status self' !! file = Some r' →
    is_Some (failed_op r') ↔ last_attempt_failed file (zip l outs) false = true.

End StatusVocabulary.

Arguments attempt : clear implicits.
Arguments failed_op_iff_last_attempt_failed : clear implicits.

(** A run on one file: [put] fails, then [put] succeeds. *)
Definition put_fails : attempt unit :=
  {| att_name := "put"; att_file := "a";
     att_func := returning (false, "boom", []) |}.
Definition put_works : attempt unit :=
  {| att_name := "put"; att_file := "a"; att_func := returning (true, "", []) |}.
Definition put_done_after_failure : FileRecord :=
  set_failed_op "put"
    (set_ops <["put" := {| op_started := true; op_done := true |}]> new_record).

Section CloudVocabulary.
Import connect_cloud.

(** The classes of the [except] clause of [init_resource]. *)
Definition is_connection_error (e : exn) : bool :=
  match e with
  | Boto3Error _ | BotoCoreError _ => true
  | _ => false
  end.

(** A boto3 whose sessions are numbers and whose resources are the
    endpoint they were asked for; it refuses the endpoint [None]. *)
Definition sample_boto : boto3 nat string :=
  {| new_session := Return 1%nat;
     resource_of := λ _ endpoint _ _,
       match endpoint with
       | Some u => Return u
       | None => Raise (BotoCoreError "Invalid endpoint: None")
       end |}.
Definition sample_connector (endpoint : option string) : Connector string :=
  {| url := endpoint;
     keys := Some (list_to_map [("access_key", "AK"); ("secret_key", "SK")]);
     message := ""; resource := None |}.

End CloudVocabulary.

Section SubpathVocabulary.
Import subpath_required.


(** What the guard does when it goes straight to the wrapped function. *)
Definition straight_to {Path FS V : Type}
    (func : string → M (World Path FS) V) (file : string)
    : M (World Path FS) (bool * string + V) :=
  λ w, let '(w', r) := func file w in (w', result_map inr r).

(** A small file system: the directories and the regular files there
    are, as lists of path components below one root. *)
Record tree : Type := { dirs : list (list string); files : list (list string) }.

Fixpoint components (cur s : string) : list string :=
  match s with
  | EmptyString => if decide (cur = "") then [] else [cur]
  | String c rest =>
      if decide (c = "/"%char)
      then (if decide (cur = "") then [] else [cur]) ++ components "" rest
      else components (cur +:+ String c EmptyString) rest
  end.

(** [p], its parents and the root. *)
Definition ancestors (p : list string) : list (list string) :=
  map (λ n, take n p) (seq 0 (S (length p))).

(** [mkdir -p]: an [OSError] when a regular file is in the way, else the
    path and its parents are directories. *)
Definition tree_mkdir (p : list string) (t : tree) : tree * result unit :=
  if bool_decide (Exists (λ q, q ∈ files t) (ancestors p))
  then (t, Raise (OSError "[Errno 20] Not a directory"))
  else ({| dirs := ancestors p ++ dirs t; files := files t |}, Return tt).

#[local] Instance tree_pathlib : Pathlib (list string) tree.
Proof.
  refine {| path_of := components "";
            truediv := λ a b, a ++ b;
            path_exists := λ p t, Return (bool_decide (p ∈ dirs t ++ files t));
            mkdir := tree_mkdir |}.
  intros p t t'. unfold tree_mkdir.
  assert (p ∈ ancestors p) as Hin.
  { unfold ancestors. apply list_elem_of_fmap. exists (length p).
    split; [by rewrite firstn_all|]. apply elem_of_seq. lia. }
  destruct (bool_decide (Exists _ _)); intros [= <-].
  f_equal. apply bool_decide_eq_true, elem_of_app. left.
  change (p ∈ ancestors p ++ dirs t). apply elem_of_app. by left.
Defined.

Definition sample_world (t : tree) : World (list string) tree :=
  {| filehandler :=
       {| data := {[ "f.txt" := {[ "subpath" := "sub/dir" ]} ]};
          local_destination := ["tmp"] |};
     fs := t |}.

(** Nothing there yet; a regular file where a parent should be; and
    the directories made. *)
Definition empty_tree : tree := {| dirs := []; files := [] |}.
Definition made_tree : tree :=
  {| dirs := ancestors ["tmp"; "sub"; "dir"]; files := [] |}.

(** A wrapped function that returns [(True, "done")] and touches
    nothing. *)
Definition done_op : string → M (World (list string) tree) (bool * string) :=
  λ _, ret (true, "done").

End SubpathVocabulary.

Section GuardVocabulary.

(** The wrapped function removes no registered file and revokes no
    cancellation. *)
Definition keeps_cancelled (func : string → M Handler (bool * string)) : Prop :=
  ∀ file self self' res x r,
    func file self = (self', res) →
    status self !! x = Some r →
    ∃ r', status self' !! x = Some r' ∧ (cancel r = true → cancel r' = true).

(** The wrapped function registers and removes no file. *)
Definition keeps_files (func : string → M Handler (bool * string)) : Prop :=
  ∀ file self self' res,
    func file self = (self', res) → dom (status self') = dom (status self).

(** What the failure branch leaves behind. *)
Definition after_failure (file msg : string) (r2 : FileRecord)
    (self2 : Handler) : Handler :=
  let self3 := set_status <[file := update_cancel msg r2]> self2 in
  if break_on_fail self2
  then set_status
         (verify_proceed.cancel_others file (verify_proceed.cancel_message file))
         self3
  else self3.

End GuardVocabulary.

Section UpdateStatusVocabulary.
Context {X : Type}.

(** The flags of a record that [verify_proceed] owns. *)
Definition flags_of (self : Handler) (file : string)
    : option (bool * bool * string) :=
  (λ r, (cancel r, started r, message r)) <$> status self !! file.

(** The wrapped function writes none of these flags. *)
Definition keeps_flags (func : string → M Handler (bool * string * list X)) : Prop :=
  ∀ file self self' res x,
    func file self = (self', res) → flags_of self' x = flags_of self x.

End UpdateStatusVocabulary.

Section SampleVocabulary.

(** A handler after a keyboard interrupt. *)
Definition stopped_handler (files : list string) : Handler :=
  {| stop_doing := true; break_on_fail := false;
     status := list_to_map (map (λ f, (f, new_record)) files) |}.

(** A record of a download: [get] and [update_db], and no [put]. *)
Definition download_record : FileRecord :=
  {| cancel := false; started := false; message := ""; failed_op := None;
     ops := list_to_map [("get", new_op); ("update_db", new_op)] |}.

(** A connector whose keys lack the secret one. *)
Definition half_keyed_connector : connect_cloud.Connector string :=
  {| connect_cloud.url := Some "https://s3";
     connect_cloud.keys := Some (list_to_map [("access_key", "AK")]);
     connect_cloud.message := ""; connect_cloud.resource := None |}.

End SampleVocabulary.

Section SpinnerVocabulary.
Import removal_spinner.

(** The wrapped function shows nothing on the terminal. *)
Definition silent {Args : Type} (func : Args → M Remover string) : Prop :=
  ∀ args self self' res,
    func args self = (self', res) → shown self' = shown self.

(** A removal that answers with a message. *)
Definition answering (message : string) : unit → M Remover string :=
  λ _, ret message.

End SpinnerVocabulary.

Section SortVocabulary.
Context {A K : Type} (lt : K → K → option bool).

Local Notation "a ≺ b" := (lt a b = Some true) (at level 70).




End SortVocabulary.

Section ListerVocabulary.
Import data_lister.





(** The identifier of a project is a string, or a number. *)
Definition id_is_str (t : gmap string value) : Prop :=
  ∃ s, t !! "Project ID" = Some (VStr s).
Definition id_is_int (t : gmap string value) : Prop :=
  ∃ n, t !! "Project ID" = Some (VInt n).
Definition id_is_none (t : gmap string value) : Prop :=
  t !! "Project ID" = Some VNone.

(** Three projects, one never updated. *)
Definition sample_project (id : string) (updated : value) : gmap string value :=
  list_to_map [("Project ID", VStr id); ("Title", VStr "t"); ("Last updated", updated)].
Definition sample_projects : list (gmap string value) :=
  [sample_project "b" (VStr "2021-03-01"); sample_project "c" VNone;
   sample_project "a" (VStr "2021-03-01")].

(** The three as a listing by "updated" has them. *)
Definition sample_listing : list (gmap string value) :=
  [sample_project "c" VNone; sample_project "a" (VStr "2021-03-01");
   sample_project "b" (VStr "2021-03-01")].

End ListerVocabulary.

(** * Properties *)

(** ** hashlib.sha256 on known digests *)

Example sha256_empty :
  SHA256.hexdigest SHA256.new
  = "e3b0c44298fc1c149afbf4c8996fb92427ae41e4649b934ca495991b7852b855".
Proof. vm_compute. reflexivity. Qed.

Example sha256_abc :
  SHA256.hexdigest (SHA256.update SHA256.new (bytes_of_string "abc"))
  = "ba7816bf8f01cfea414140de5dae2223b00361a396177a9cb410ff61f20015ad".
Proof. vm_compute. reflexivity. Qed.

Example sha256_two_blocks :
  SHA256.hexdigest (SHA256.update SHA256.new (repeat "a"%byte 120))
  = "2f3d335432c70b580af0e8e1b3674a7c020d683aa5f73aaaedfdc55af904c21c".
Proof. vm_compute. reflexivity. Qed.


(** ** checksum_verification_required *)

Section ChecksumProperties.
Import checksum_verification_required.
Context {Args : Type}.
Implicit Types (func : Args → result chunks) (cs : chunks).

(** Feeding a sequence chunk by chunk is feeding its concatenation. *)
Lemma update_app h (b1 b2 : list byte) :
  SHA256.update h (b1 ++ b2) = SHA256.update (SHA256.update h b1) b2.
Proof. unfold SHA256.update. by rewrite map_app, fold_left_app. Qed.

Lemma feed_yield_all l h :
  feed h (yield_all l) = Return (SHA256.update h (concat l)).
Proof.
  revert h. induction l as [|chunk rest IH]; intros h; simpl; [done|].
  by rewrite IH, update_app.
Qed.

(** With verification, a digest that matches gives [(True, "")]. *)
Lemma verify_checksum_match func correct_checksum args cs h :
  func args = Return cs →
  feed SHA256.new cs = Return h →
  SHA256.hexdigest h = correct_checksum →
  verify_checksum func correct_checksum args true = Return (true, "").
Proof.
  intros Hf Hh Hd. unfold verify_checksum, try_body. rewrite Hf, Hh.
  apply String.eqb_eq in Hd. by rewrite Hd.
Qed.

(** C1, as the code has it.  With verification, when the digest of the
    chunks differs from the expected one the wrapper sets the message
    "Checksum verification failed. File compromised." and leaves
    [done = False] in the branch, but the [else] of the outer [try] then
    sets [done = True]: the call returns success [true] next to the
    failure message, where the specification has [false]. *)
Theorem verify_checksum_mismatch_returns_done func correct_checksum args cs h :
  func args = Return cs →
  feed SHA256.new cs = Return h →
  SHA256.hexdigest h ≠ correct_checksum →
  verify_checksum func correct_checksum args true
  = Return (true, "Checksum verification failed. File compromised.").
Proof.
  intros Hf Hh Hd. unfold verify_checksum, try_body. rewrite Hf, Hh.
  apply String.eqb_neq in Hd. by rewrite Hd.
Qed.


(** C6.  Without verification, two runs whose inner calls end alike but
    for the chunks they produce (whatever the chunks, whatever iterating
    over them would do, and whatever the expected digests) return the
    same; the result is that of [unverified], in which no chunk is read
    and nothing is hashed. *)
Theorem verify_checksum_unverified_ignores_chunks
    func1 func2 correct1 correct2 args :
  same_outcome (func1 args) (func2 args) →
  verify_checksum func1 correct1 args false
  = verify_checksum func2 correct2 args false
  ∧ verify_checksum func1 correct1 args false = unverified (func1 args).
Proof.
  unfold same_outcome, verify_checksum, try_body, unverified.
  destruct (func1 args) as [cs1|e1], (func2 args) as [cs2|e2];
    intros H; try done.
  subst e2. by destruct e1.
Qed.

End ChecksumProperties.

Lemma verify_checksum_mismatch_returns_done_witness :
  checksum_verification_required.verify_checksum
    (λ _ : unit, Return (yield_all [bytes_of_string "abc"]))
    "e3b0c44298fc1c149afbf4c8996fb92427ae41e4649b934ca495991b7852b855" tt true
  = Return (true, "Checksum verification failed. File compromised.").
Proof.
  eapply verify_checksum_mismatch_returns_done.
  - reflexivity.
  - reflexivity.
  - vm_compute. discriminate.
Defined.

Lemma verify_checksum_unverified_ignores_chunks_witness :
  checksum_verification_required.verify_checksum
    (λ _ : unit, Return (yield_all [bytes_of_string "abc"])) "00" tt false
  = checksum_verification_required.verify_checksum
      (λ _ : unit, Return (checksum_verification_required.Throw (ValueError "bad chunk")))
      "ff" tt false
  ∧ checksum_verification_required.verify_checksum
      (λ _ : unit, Return (yield_all [bytes_of_string "abc"])) "00" tt false
    = Return (true, "").
Proof.
  apply (verify_checksum_unverified_ignores_chunks
           (λ _ : unit, Return (yield_all [bytes_of_string "abc"]))
           (λ _ : unit, Return (checksum_verification_required.Throw (ValueError "bad chunk")))
           "00" "ff" tt).
  exact I.
Defined.

(** ** verify_proceed *)

Section VerifyProceedProperties.
Implicit Types (func : string → M Handler (bool * string)) (self : Handler).
Implicit Types (st : gmap string FileRecord) (r : FileRecord).

Lemma on_file_Some file f self r :
  status self !! file = Some r →
  on_file file f self = (set_status <[file := f r]> self, Return tt).
Proof. intros H. unfold on_file, bind, get, subscript. by rewrite H. Qed.

Lemma lookup_cancel_others file msg st x :
  verify_proceed.cancel_others file msg st !! x
  = (λ r, if negb (cancel r) && negb (started r) && negb (bool_decide (x = file))
          then update_cancel msg r else r) <$> st !! x.
Proof.
  unfold verify_proceed.cancel_others. rewrite map_lookup_imap.
  by destruct (st !! x).
Qed.

(** C4.  On a file whose record has [cancel] set the guard returns
    [False] and leaves [self] as it was, its status with it, whatever
    the wrapped function is: the function is not called. *)
Theorem cancelled_file_is_skipped func file self r :
  status self !! file = Some r →
  cancel r = true →
  verify_proceed.wrapped func file self = (self, Return false).
Proof.
  intros Hr Hc. unfold verify_proceed.wrapped, bind, get, subscript, ret.
  destruct (stop_doing self); [done|]. by rewrite Hr, Hc.
Qed.

(** C5.  The bulk cancellation of the break-on-fail branch leaves as it
    is the record of every file that is started, of every file that is
    cancelled already, and of the file that failed. *)
Theorem cancel_others_spares file msg st x r :
  st !! x = Some r →
  started r = true ∨ cancel r = true ∨ x = file →
  verify_proceed.cancel_others file msg st !! x = Some r.
Proof.
  intros Hr H. rewrite lookup_cancel_others, Hr. simpl.
  destruct H as [H|[H|H]].
  - by rewrite H, andb_false_r.
  - by rewrite H.
  - by rewrite bool_decide_true, andb_false_r.
Qed.

(** The bulk cancellation on a file it does reach. *)
Lemma cancel_others_cancels file msg st x r :
  st !! x = Some r →
  started r = false → cancel r = false → x ≠ file →
  verify_proceed.cancel_others file msg st !! x = Some (update_cancel msg r).
Proof.
  intros Hr Hs Hc Hx. rewrite lookup_cancel_others, Hr. simpl.
  by rewrite Hs, Hc, bool_decide_false.
Qed.

(** C2.  Files [a], [b], [c] with [b] and [c] neither started nor
    cancelled and [a] not cancelled; the wrapped function, called with
    [a] marked started, fails on [a] with [msg], leaving the records of
    [b] and [c] and the break-on-fail flag as they were.  Then the guard
    returns [False] and the record of [a] has [cancel = True] and the
    message [msg].  With break-on-fail the records of [b] and [c] have
    [cancel = True] and the message "Cancelling upload due to file
    '<a>'. Break-on-fail specified in call.", the rest of them as it
    was.  Without, every record but that of [a] is as the wrapped
    function left it, those of [b] and [c] unchanged. *)
Theorem break_on_fail_scope func self a b c ra rb rc msg self2 ra2 :
  a ≠ b → a ≠ c →
  stop_doing self = false →
  status self !! a = Some ra → cancel ra = false →
  status self !! b = Some rb → started rb = false → cancel rb = false →
  status self !! c = Some rc → started rc = false → cancel rc = false →
  func a {| stop_doing := stop_doing self;
            break_on_fail := break_on_fail self;
            status :=
              <[a := {| cancel := cancel ra; started := true;
                        message := message ra; failed_op := failed_op ra;
                        ops := ops ra |}]> (status self) |}
  = (self2, Return (false, msg)) →
  break_on_fail self2 = break_on_fail self →
  status self2 !! a = Some ra2 →
  status self2 !! b = Some rb → status self2 !! c = Some rc →
  ∃ self3,
    verify_proceed.wrapped func a self = (self3, Return false)
    ∧ status self3 !! a
      = Some {| cancel := true; started := started ra2; message := msg;
                failed_op := failed_op ra2; ops := ops ra2 |}
    ∧ if break_on_fail self then
        status self3 !! b
        = Some {| cancel := true; started := false;
                  message := "Cancelling upload due to file '" +:+ a
                             +:+ "'. Break-on-fail specified in call.";
                  failed_op := failed_op rb; ops := ops rb |}
        ∧ status self3 !! c
          = Some {| cancel := true; started := false;
                    message := "Cancelling upload due to file '" +:+ a
                               +:+ "'. Break-on-fail specified in call.";
                    failed_op := failed_op rc; ops := ops rc |}
      else
        status self3 !! b = Some rb ∧ status self3 !! c = Some rc
        ∧ ∀ x, x ≠ a → status self3 !! x = status self2 !! x.
Proof.
  intros Hab Hac Hstop Ha Hca Hb Hsb Hcb Hc Hsc Hcc Hf Hbof Ha2 Hb2 Hc2.
  change (func a (with_started a ra self) = (self2, Return (false, msg))) in Hf.
  unfold verify_proceed.wrapped.
  unfold bind at 1. unfold get at 1. rewrite Hstop.
  unfold bind at 1. unfold subscript at 1. rewrite Ha. unfold ret at 1.
  rewrite Hca.
  unfold bind at 1. rewrite (on_file_Some _ _ _ _ Ha).
  unfold bind at 1. fold (with_started a ra self). rewrite Hf.
  change (negb false) with true. cbv iota.
  unfold bind at 1. rewrite (on_file_Some _ _ _ _ Ha2).
  unfold bind at 1. unfold get at 1. cbn [break_on_fail set_status]. rewrite Hbof.
  destruct (break_on_fail self).
  - eexists. split; [reflexivity|]. simpl status.
    split; [|split].
    + by rewrite lookup_cancel_others, lookup_insert_eq.
    + rewrite (cancel_others_cancels a _ _ b rb);
        [|by rewrite lookup_insert_ne|done..].
      unfold update_cancel. by rewrite Hsb.
    + rewrite (cancel_others_cancels a _ _ c rc);
        [|by rewrite lookup_insert_ne|done..].
      unfold update_cancel. by rewrite Hsc.
  - eexists. split; [reflexivity|]. simpl status.
    split; [apply lookup_insert_eq|].
    split; [by rewrite lookup_insert_ne|].
    split; [by rewrite lookup_insert_ne|].
    intros x Hx. by rewrite lookup_insert_ne.
Qed.

End VerifyProceedProperties.

Lemma cancelled_file_is_skipped_witness :
  let self :=
    set_status <["a" := update_cancel "boom" new_record]>
      (new_handler true ["a"; "b"]) in
  verify_proceed.wrapped (returning (true, "")) "a" self = (self, Return false).
Proof.
  intros self.
  apply (cancelled_file_is_skipped (returning (true, "")) "a" self
           (update_cancel "boom" new_record)).
  - vm_compute. reflexivity.
  - reflexivity.
Defined.

Lemma cancel_others_spares_witness :
  let st : gmap string FileRecord :=
    <["b" := set_started true new_record]> (status (new_handler true ["a"; "b"; "c"])) in
  verify_proceed.cancel_others "a" "stop" st !! "b"
  = Some (set_started true new_record).
Proof.
  intros st.
  apply (cancel_others_spares "a" "stop" st "b" (set_started true new_record)).
  - vm_compute. reflexivity.
  - left. reflexivity.
Defined.

Lemma break_on_fail_scope_witness :
  (∃ self3,
    verify_proceed.wrapped (returning (false, "boom")) "a"
      (new_handler true ["a"; "b"; "c"]) = (self3, Return false)
    ∧ status self3 !! "a"
      = Some {| cancel := true; started := true; message := "boom";
                failed_op := None; ops := ops new_record |}
    ∧ status self3 !! "b"
      = Some {| cancel := true; started := false;
                message := "Cancelling upload due to file 'a'. Break-on-fail specified in call.";
                failed_op := None; ops := ops new_record |}
    ∧ status self3 !! "c"
      = Some {| cancel := true; started := false;
                message := "Cancelling upload due to file 'a'. Break-on-fail specified in call.";
                failed_op := None; ops := ops new_record |})
  ∧ (∃ self3,
    verify_proceed.wrapped (returning (false, "boom")) "a"
      (new_handler false ["a"; "b"; "c"]) = (self3, Return false)
    ∧ status self3 !! "a"
      = Some {| cancel := true; started := true; message := "boom";
                failed_op := None; ops := ops new_record |}
    ∧ status self3 !! "b" = Some new_record
    ∧ status self3 !! "c" = Some new_record).
Proof.
  split.
  - destruct (break_on_fail_scope (returning (false, "boom"))
                (new_handler true ["a"; "b"; "c"]) "a" "b" "c"
                new_record new_record new_record "boom"
                (with_started "a" new_record (new_handler true ["a"; "b"; "c"]))
                (set_started true new_record))
      as (self3 & Hw & Ha & Hbc);
      [discriminate | discriminate | reflexivity
      | vm_compute; reflexivity | reflexivity
      | vm_compute; reflexivity | reflexivity | reflexivity
      | vm_compute; reflexivity | reflexivity | reflexivity
      | reflexivity | reflexivity
      | vm_compute; reflexivity | vm_compute; reflexivity
      | vm_compute; reflexivity | ].
    exists self3.
    split; [exact Hw|]. split; [exact Ha|].
    split; [exact (proj1 Hbc)|exact (proj2 Hbc)].
  - destruct (break_on_fail_scope (returning (false, "boom"))
                (new_handler false ["a"; "b"; "c"]) "a" "b" "c"
                new_record new_record new_record "boom"
                (with_started "a" new_record (new_handler false ["a"; "b"; "c"]))
                (set_started true new_record))
      as (self3 & Hw & Ha & Hbc);
      [discriminate | discriminate | reflexivity
      | vm_compute; reflexivity | reflexivity
      | vm_compute; reflexivity | reflexivity | reflexivity
      | vm_compute; reflexivity | reflexivity | reflexivity
      | reflexivity | reflexivity
      | vm_compute; reflexivity | vm_compute; reflexivity
      | vm_compute; reflexivity | ].
    exists self3.
    split; [exact Hw|]. split; [exact Ha|].
    split; [exact (proj1 Hbc)|exact (proj1 (proj2 Hbc))].
Defined.

(** ** update_status *)

Section UpdateStatusProperties.
Context {X : Type}.
Implicit Types (func : string → M Handler (bool * string * list X)).
Implicit Types (self : Handler) (l : list (attempt X)).

(** C7.  With a name outside the four recognised ones the wrapper raises
    the exception of the contract, not a [(False, message)] result, and
    [self] with its status is as it was, whatever the status holds and
    whatever the wrapped function is. *)
Theorem unknown_operation_raises name func file self :
  name ∉ update_status.whitelist →
  update_status.wrapped name func file self
  = (self, Raise (Exception ("The function " +:+ name
                             +:+ " cannot be used with this decorator."))).
Proof.
  intros H. unfold update_status.wrapped. by rewrite bool_decide_false.
Qed.

Lemma failed_op_of_on_op file name f self self' r x :
  on_op file name f self = (self', r) →
  failed_op_of self' x = failed_op_of self x.
Proof.
  unfold on_op, bind, get, subscript, raise, ret, modify, failed_op_of.
  destruct (status self !! file) as [rf|] eqn:Hf; [|by intros [= <- _]].
  destruct (ops rf !! name) as [o|]; intros [= <- _]; [|done].
  simpl. destruct (decide (file = x)) as [->|Hne].
  - by rewrite lookup_insert_eq, Hf.
  - by rewrite lookup_insert_ne.
Qed.

Lemma failed_op_of_on_file file name self self' x :
  on_file file (set_failed_op name) self = (self', Return tt) →
  failed_op_of self' x
  = (λ cur, if bool_decide (file = x) then Some name else cur)
    <$> failed_op_of self x.
Proof.
  unfold on_file, bind, get, subscript, raise, ret, modify, failed_op_of.
  destruct (status self !! file) as [rf|] eqn:Hf; [|done].
  intros [= <-]. simpl. destruct (decide (file = x)) as [->|Hne].
  - by rewrite lookup_insert_eq, Hf, bool_decide_true.
  - rewrite lookup_insert_ne, bool_decide_false by done.
    by destruct (status self !! x).
Qed.

(** One invocation: a failure writes the name of the operation into
    [failed_op] of its file, a success writes nothing there. *)
Lemma failed_op_of_wrapped name func file self self' ok msg x :
  keeps_failed_op func →
  update_status.wrapped name func file self = (self', Return (ok, msg)) →
  failed_op_of self' x
  = (λ cur, if bool_decide (file = x) && negb ok then Some name else cur)
    <$> failed_op_of self x.
Proof.
  intros Hk. unfold update_status.wrapped.
  destruct (negb (bool_decide (name ∈ update_status.whitelist))); [done|].
  unfold bind at 1. unfold get at 1.
  unfold bind at 1. unfold subscript at 1.
  destruct (status self !! file) as [rf|]; [|done].
  unfold ret at 1.
  destruct (negb (bool_decide (is_Some (ops rf !! name)))); [done|].
  unfold bind at 1.
  destruct (on_op file name update_started self) as [s1 [[]|e]] eqn:H1; [|done].
  unfold bind at 1.
  destruct (func file s1) as [s2 [[[ok' msg'] extra]|e]] eqn:H2; [|done].
  apply (failed_op_of_on_op _ _ _ _ _ _ x) in H1.
  apply (Hk _ _ _ _ x) in H2.
  destruct ok'; cbn [negb].
  - unfold bind at 1.
    destruct (on_op file name update_done s2) as [s3 [[]|e]] eqn:H3; [|done].
    apply (failed_op_of_on_op _ _ _ _ _ _ x) in H3.
    intros [= <- <- <-]. rewrite H3, H2, H1, andb_false_r.
    by destruct (failed_op_of self x).
  - unfold bind at 1.
    destruct (on_file file (set_failed_op name) s2) as [s3 [[]|e]] eqn:H3; [|done].
    apply (failed_op_of_on_file _ _ _ _ x) in H3.
    intros [= <- <- <-]. by rewrite H3, H2, H1, andb_true_r.
Qed.

Lemma failed_op_of_run file l : ∀ self self' outs,
  Forall (λ a, keeps_failed_op (att_func a)) l →
  run_attempts l self = (self', Return outs) →
  failed_op_of self' file
  = last_failure file (zip l outs) <$> failed_op_of self file.
Proof.
  induction l as [|a rest IH]; intros self self' outs Hk; simpl.
  - intros [= <- <-]. by destruct (failed_op_of self file).
  - apply Forall_cons in Hk as [Ha Hrest]. unfold bind at 1.
    destruct (update_status.wrapped _ _ _ self) as [s1 [[ok msg]|e]] eqn:H1;
      [|done].
    unfold bind at 1.
    destruct (run_attempts rest s1) as [s2 [outs'|e]] eqn:H2; [|done].
    intros [= <- <-]. simpl.
    rewrite (IH _ _ _ Hrest H2),
      (failed_op_of_wrapped _ _ _ _ _ _ _ file Ha H1).
    by destruct (failed_op_of self file).
Qed.

Lemma last_failure_is_Some file (log : list (attempt X * (bool * string))) :
  ∀ cur, is_Some (last_failure file log cur)
         ↔ is_Some cur ∨ Exists (failed_on file) log.
Proof.
  induction log as [|[a [ok msg]] rest IH]; intros cur; simpl.
  - rewrite Exists_nil. tauto.
  - rewrite IH, Exists_cons.
    assert (failed_on file (a, (ok, msg))
            ↔ bool_decide (att_file a = file) && negb ok = true) as ->.
    { unfold failed_on. simpl.
      by rewrite andb_true_iff, bool_decide_eq_true, negb_true_iff. }
    destruct (bool_decide (att_file a = file) && negb ok).
    + split; [tauto|]. intros _. left. by eexists.
    + split; [tauto|]. intros [H|[[=]|H]]; tauto.
Qed.

(** C3, amended.  The wrapped functions not writing [failed_op]
    themselves, after a run of invocations that started with [failed_op]
    of a file unset, [failed_op] of the file names the last invocation on
    it that failed: it is set exactly when some invocation on the file
    failed, and a success after a failure leaves it set. *)
Theorem failed_op_names_last_failure l self self' outs file r r' :
  Forall (λ a, keeps_failed_op (att_func a)) l →
  status self !! file = Some r → failed_op r = None →
  run_attempts l self = (self', Return outs) →
  status self' !! file = Some r' →
  failed_op r' = last_failure file (zip l outs) None
  ∧ (is_Some (failed_op r') ↔ Exists (failed_on file) (zip l outs)).
Proof.
  intros Hk Hr Hnone Hrun Hr'.
  pose proof (failed_op_of_run file l _ _ _ Hk Hrun) as H.
  unfold failed_op_of in H. rewrite Hr, Hr' in H. simpl in H.
  rewrite Hnone in H.
  injection H as H. split; [done|].
  rewrite H, last_failure_is_Some. split; [|tauto].
  intros [[? [=]]|?]; done.
Qed.

End UpdateStatusProperties.

Lemma returning_keeps_failed_op {X} (res : bool * string * list X) :
  keeps_failed_op (returning res).
Proof. by intros file self self' r x [= <- _]. Qed.

Lemma unknown_operation_raises_witness :
  update_status.wrapped "remove" (returning (true, "", @nil unit)) "a"
    (new_handler false ["a"])
  = (new_handler false ["a"],
     Raise (Exception "The function remove cannot be used with this decorator.")).
Proof.
  apply (unknown_operation_raises "remove" (returning (true, "", @nil unit)) "a"
           (new_handler false ["a"])).
  apply (proj1 (bool_decide_eq_false _)). vm_compute. reflexivity.
Defined.

Lemma failed_op_names_last_failure_witness :
  failed_op put_done_after_failure
  = last_failure "a" [(put_fails, (false, "boom")); (put_works, (true, ""))] None
  ∧ (is_Some (failed_op put_done_after_failure)
     ↔ Exists (failed_on "a")
         [(put_fails, (false, "boom")); (put_works, (true, ""))]).
Proof.
  apply (failed_op_names_last_failure [put_fails; put_works]
           (new_handler false ["a"])
           (set_status <["a" := put_done_after_failure]> (new_handler false ["a"]))
           [(false, "boom"); (true, "")] "a" new_record put_done_after_failure).
  - repeat constructor; apply returning_keeps_failed_op.
  - vm_compute. reflexivity.
  - reflexivity.
  - vm_compute. reflexivity.
  - vm_compute. reflexivity.
Defined.

(** C3 as worded fails: [put] fails on a file and then succeeds on it; the
    most recent attempt succeeded and [failed_op] still names [put]. *)
Lemma failed_op_survives_success : ¬ failed_op_iff_last_attempt_failed unit.
Proof.
  intros H.
  destruct (H [put_fails; put_works] (new_handler false ["a"])
              (set_status <["a" := put_done_after_failure]>
                 (new_handler false ["a"]))
              [(false, "boom"); (true, "")] "a" new_record
              put_done_after_failure) as [Hset _];
    [ repeat constructor; apply returning_keeps_failed_op
    | vm_compute; reflexivity | reflexivity
    | vm_compute; reflexivity | vm_compute; reflexivity | ].
  assert (is_Some (failed_op put_done_after_failure)) as Hs by (by eexists).
  apply Hset in Hs. vm_compute in Hs. discriminate.
Qed.

(** ** connect_cloud *)

Section ConnectCloudProperties.
Import connect_cloud.
Context {Session Resource Args V : Type} (boto : boto3 Session Resource).
Implicit Types (self : Connector Resource) (func : Args → M (Connector Resource) V).

(** The [try] writes [self.resource] when everything in it returned, and
    nothing otherwise. *)
Lemma try_body_cases self self1 out :
  try_body boto self = (self1, out) →
  match out with
  | Return _ => ∃ r, self1 = set_resource r self
  | Raise _ => self1 = self
  end.
Proof.
  unfold try_body, bind, get, key_of, subscript, raise, ret, modify.
  destruct (new_session boto) as [session|e]; [|by intros [= <- <-]].
  destruct (keys self) as [ks|]; [|by intros [= <- <-]].
  destruct (ks !! "access_key") as [ak|]; [|by intros [= <- <-]].
  destruct (ks !! "secret_key") as [sk|]; [|by intros [= <- <-]].
  destruct (resource_of boto session (url self) ak sk) as [r|e];
    intros [= <- <-]; [by exists r | done].
Qed.

(** C8.  The three ways the connection attempt of the [try] can end.
    Raising a boto3 or botocore error: [url] and [keys] of [self] are
    cleared, the message "S3 connection failed: ..." is stored, and the
    result is the same for every wrapped function, which is not called.
    Raising anything else: the exception goes on, [self] as it was.
    Returning: the resource is stored in [self], its [url] and [keys]
    kept, and the wrapped function is called on that [self]. *)
Theorem connection_guard func args self self1 out :
  try_body boto self = (self1, out) →
  match out with
  | Raise err =>
      if is_connection_error err then
        ∃ self', init_resource boto func args self = (self', Return None)
                 ∧ url self' = None ∧ keys self' = None
                 ∧ message self' = "S3 connection failed: " +:+ str err
                 ∧ resource self' = resource self
      else init_resource boto func args self = (self, Raise err)
  | Return _ =>
      ∃ r, self1 = set_resource r self
           ∧ resource self1 = Some r
           ∧ url self1 = url self ∧ keys self1 = keys self
           ∧ init_resource boto func args self
             = (let '(self2, res) := func args self1 in
                (self2, result_map Some res))
  end.
Proof.
  intros H. pose proof (try_body_cases _ _ _ H) as Hc.
  unfold init_resource. rewrite H. destruct out as [[]|err].
  - destruct Hc as [r ->]. by exists r.
  - subst self1. destruct err; simpl; try done; by eexists.
Qed.

(** C10.  When the connection attempt raises a boto3 or botocore error,
    the wrapper returns [None], whatever the error and the wrapped
    function: no [(ok, message)] pair reaches the caller, and the message
    of the error is in [self.message] only. *)
Theorem failed_connection_returns_None func args self self1 err :
  try_body boto self = (self1, Raise err) →
  is_connection_error err = true →
  (init_resource boto func args self).2 = Return None
  ∧ message (init_resource boto func args self).1
    = "S3 connection failed: " +:+ str err.
Proof.
  intros H Herr. pose proof (try_body_cases _ _ _ H) as Hc. simpl in Hc.
  subst self1. unfold init_resource. rewrite H.
  by destruct err.
Qed.

End ConnectCloudProperties.

Lemma connection_guard_witness :
  (∃ self',
     connect_cloud.init_resource sample_boto (λ _ : unit, ret (true, ""))
       tt (sample_connector None) = (self', Return None)
     ∧ connect_cloud.url self' = None ∧ connect_cloud.keys self' = None
     ∧ connect_cloud.message self'
       = "S3 connection failed: Invalid endpoint: None"
     ∧ connect_cloud.resource self' = None)
  ∧ connect_cloud.init_resource sample_boto (λ _ : unit, ret (true, ""))
      tt (sample_connector (Some "https://s3"))
    = (connect_cloud.set_resource "https://s3" (sample_connector (Some "https://s3")),
       Return (Some (true, ""))).
Proof.
  split.
  - apply (connection_guard sample_boto (λ _ : unit, ret (true, "")) tt
             (sample_connector None) (sample_connector None)
             (Raise (BotoCoreError "Invalid endpoint: None"))).
    vm_compute. reflexivity.
  - destruct (connection_guard sample_boto (λ _ : unit, ret (true, "")) tt
                (sample_connector (Some "https://s3"))
                (connect_cloud.set_resource "https://s3"
                   (sample_connector (Some "https://s3")))
                (Return tt)) as (r & _ & _ & _ & _ & ->);
      [vm_compute; reflexivity | reflexivity].
Defined.

Lemma failed_connection_returns_None_witness :
  (connect_cloud.init_resource sample_boto (λ _ : unit, ret (true, ""))
     tt (sample_connector None)).2 = Return None
  ∧ connect_cloud.message
      (connect_cloud.init_resource sample_boto (λ _ : unit, ret (true, ""))
         tt (sample_connector None)).1
    = "S3 connection failed: Invalid endpoint: None".
Proof.
  apply (failed_connection_returns_None sample_boto (λ _ : unit, ret (true, ""))
           tt (sample_connector None) (sample_connector None)
           (BotoCoreError "Invalid endpoint: None")).
  - vm_compute. reflexivity.
  - reflexivity.
Defined.

(** ** subpath_required *)

Section SubpathProperties.
Import subpath_required.
Context {Path FS V : Type} {pathlib : Pathlib Path FS}.
Implicit Types (func : string → M (World Path FS) V) (w : World Path FS).

(** Computing the path reads [self.filehandler] and writes nothing. *)
Lemma full_subpath_of_reads file w :
  full_subpath_of file w = (w, (full_subpath_of file w).2).
Proof.
  unfold full_subpath_of, bind, get, subscript, raise, ret.
  destruct (data (filehandler w) !! file) as [file_info|]; [|done].
  by destruct (file_info !! "subpath").
Qed.


(** The ways through the guard once the path is known. *)
Lemma check_and_create_existing func file w p :
  (full_subpath_of file w).2 = Return p →
  path_exists p (fs w) = Return true →
  check_and_create func file w = straight_to func file w.
Proof.
  intros Hp He. unfold check_and_create, bind at 1.
  rewrite full_subpath_of_reads, Hp. unfold bind. by rewrite He.
Qed.

Lemma check_and_create_missing func file w p :
  (full_subpath_of file w).2 = Return p →
  path_exists p (fs w) = Return false →
  check_and_create func file w
  = match mkdir p (fs w) with
    | (fs', Raise (OSError msg)) => (set_fs fs' w, Return (inl (false, msg)))
    | (fs', Raise e) => (set_fs fs' w, Raise e)
    | (fs', Return _) => straight_to func file (set_fs fs' w)
    end.
Proof.
  intros Hp He. unfold check_and_create, bind at 1.
  rewrite full_subpath_of_reads, Hp. unfold bind. rewrite He. simpl.
  destruct (mkdir p (fs w)) as [fs' [[]|e]]; [done|]. by destruct e.
Qed.

(** What [exists()] raises is not caught: it leaves the guard as it is,
    nothing created and the wrapped function not called. *)
Lemma check_and_create_exists_raises func file w p e :
  (full_subpath_of file w).2 = Return p →
  path_exists p (fs w) = Raise e →
  check_and_create func file w = (w, Raise e).
Proof.
  intros Hp He. unfold check_and_create, bind at 1.
  rewrite full_subpath_of_reads, Hp. unfold bind. by rewrite He.
Qed.

(** A call that came back with the value of the wrapped function ran it in
    a world where the path exists. *)
Lemma check_and_create_ran func file w w1 v :
  check_and_create func file w = (w1, Return (inr v)) →
  ∃ p w0, (full_subpath_of file w).2 = Return p
          ∧ filehandler w0 = filehandler w
          ∧ path_exists p (fs w0) = Return true
          ∧ func file w0 = (w1, Return v).
Proof.
  intros H.
  destruct ((full_subpath_of file w).2) as [p|e] eqn:Hp.
  2: { unfold check_and_create, bind at 1 in H.
       rewrite full_subpath_of_reads, Hp in H. done. }
  exists p. destruct (path_exists p (fs w)) as [[]|e] eqn:He.
  - rewrite (check_and_create_existing _ _ _ _ Hp He) in H.
    exists w. unfold straight_to in H.
    destruct (func file w) as [w' [v'|e]]; [|done].
    by injection H as <- <-.
  - rewrite (check_and_create_missing _ _ _ _ Hp He) in H.
    destruct (mkdir p (fs w)) as [fs' [[]|e]] eqn:Hm; [|by destruct e].
    exists (set_fs fs' w). unfold straight_to in H.
    destruct (func file (set_fs fs' w)) as [w' [v'|e]]; [|done].
    injection H as <- <-. repeat split.
    by apply (mkdir_exists p (fs w)).
  - by rewrite (check_and_create_exists_raises _ _ _ _ _ Hp He) in H.
Qed.


End SubpathProperties.



(** * Further properties of the decorators *)

(** ** checksum_verification_required *)

Section ChecksumFurther.
Import checksum_verification_required.
Context {Args : Type}.
Implicit Types (func : Args → result chunks) (cs : chunks).

(** X1.  With verification, and the expected digest that of the bytes
    the chunks add up to, the wrapper returns [(True, "")], however the
    bytes are cut into chunks. *)
Theorem verify_checksum_round_trip (l : list (list byte)) (args : Args) :
  verify_checksum (λ _, Return (yield_all l))
    (SHA256.hexdigest (SHA256.update SHA256.new (concat l))) args true
  = Return (true, "").
Proof.
  unfold verify_checksum, try_body. rewrite feed_yield_all.
  by rewrite String.eqb_refl.
Qed.

(** X2.  With verification the result depends on the bytes only, not on
    where the chunks are cut: the chunks of a list and their
    concatenation as one chunk give the same, for every expected
    digest. *)
Theorem verify_checksum_chunking (l : list (list byte)) correct_checksum
    (args : Args) :
  verify_checksum (λ _, Return (yield_all l)) correct_checksum args true
  = verify_checksum (λ _, Return (yield_all [concat l])) correct_checksum
      args true.
Proof.
  unfold verify_checksum, try_body. rewrite !feed_yield_all. simpl.
  by rewrite app_nil_r.
Qed.

(** X3.  The wrapper returns [done = False] exactly when a
    [ChecksumError] was raised, by the call of the wrapped function or,
    with verification, while its chunks were read; the message is that of
    the error. *)
Theorem verify_checksum_false_iff func correct_checksum args do_verify msg :
  verify_checksum func correct_checksum args do_verify = Return (false, msg)
  ↔ func args = Raise (ChecksumError msg)
    ∨ (do_verify = true
       ∧ ∃ cs, func args = Return cs
               ∧ feed SHA256.new cs = Raise (ChecksumError msg)).
Proof.
  unfold verify_checksum, try_body. split.
  - destruct (func args) as [cs|e].
    + destruct do_verify; [|done].
      destruct (feed SHA256.new cs) as [h|e] eqn:Hf.
      * by destruct (negb _).
      * destruct e; try done. intros [= <-]. right. eauto.
    + destruct e; try done. intros [= <-]. by left.
  - intros [->|(-> & cs & -> & ->)]; done.
Qed.

End ChecksumFurther.

(** ** verify_proceed *)

Section VerifyProceedFurther.
Implicit Types (func : string → M Handler (bool * string)) (self : Handler).
Implicit Types (st : gmap string FileRecord) (r : FileRecord).

(** The guard on a file that is registered and not cancelled, by what
    the wrapped function does. *)
Lemma wrapped_runs func file self r :
  stop_doing self = false →
  status self !! file = Some r →
  cancel r = false →
  verify_proceed.wrapped func file self
  = match func file (with_started file r self) with
    | (self2, Raise e) => (self2, Raise e)
    | (self2, Return (true, _)) => (self2, Return true)
    | (self2, Return (false, msg)) =>
        match status self2 !! file with
        | None => (self2, Raise (KeyError file))
        | Some r2 => (after_failure file msg r2 self2, Return false)
        end
    end.
Proof.
  intros Hstop Hr Hc. unfold verify_proceed.wrapped.
  unfold bind at 1. unfold get at 1. rewrite Hstop.
  unfold bind at 1. unfold subscript at 1. rewrite Hr. unfold ret at 1.
  rewrite Hc.
  unfold bind at 1. rewrite (on_file_Some _ _ _ _ Hr).
  unfold bind at 1. fold (with_started file r self).
  destruct (func file (with_started file r self)) as [self2 [[[] msg]|e]];
    [done| |done].
  cbn [negb]. unfold bind at 1, on_file at 1, bind at 1, get at 1.
  unfold bind at 1, subscript at 1.
  destruct (status self2 !! file) as [r2|]; [|done].
  unfold ret at 1, modify at 1, bind at 1, get at 1, after_failure.
  cbn [break_on_fail set_status].
  by destruct (break_on_fail self2).
Qed.

(** When the guard does not get to the wrapped function, [self] is as
    it was. *)
Lemma wrapped_skips func file self :
  stop_doing self = true
  ∨ status self !! file = None
  ∨ (∃ r, status self !! file = Some r ∧ cancel r = true) →
  (verify_proceed.wrapped func file self).1 = self.
Proof.
  unfold verify_proceed.wrapped, bind, get, subscript, ret, raise.
  destruct (stop_doing self); [done|].
  intros [?|[->|(r & -> & ->)]]; done.
Qed.

Lemma cancelled_file_closed func file self r :
  status self !! file = Some r →
  cancel r = true →
  verify_proceed.wrapped func file self = (self, Return false).
Proof.
  intros Hr Hc. unfold verify_proceed.wrapped, bind, get, subscript, ret.
  destruct (stop_doing self); [done|]. by rewrite Hr, Hc.
Qed.

(** X4.  With [stop_doing] set the guard returns [False] and leaves
    [self] as it was, for every file, registered or not, and every
    wrapped function: the function is not called and no file is marked
    started or cancelled. *)
Theorem stop_doing_skips func file self :
  stop_doing self = true →
  verify_proceed.wrapped func file self = (self, Return false).
Proof.
  intros H. unfold verify_proceed.wrapped, bind, get, ret. by rewrite H.
Qed.

(** X5.  On a file that has no record the guard, when not stopped,
    raises [KeyError] on the file, [self] as it was, whatever the wrapped
    function is. *)
Theorem unregistered_file_raises func file self :
  stop_doing self = false →
  status self !! file = None →
  verify_proceed.wrapped func file self = (self, Raise (KeyError file)).
Proof.
  intros Hs H. unfold verify_proceed.wrapped, bind, get, subscript, raise.
  by rewrite Hs, H.
Qed.


Lemma cancel_others_keeps_cancelled file msg st x r :
  st !! x = Some r →
  ∃ r', verify_proceed.cancel_others file msg st !! x = Some r'
        ∧ (cancel r = true → cancel r' = true).
Proof.
  intros Hr. rewrite lookup_cancel_others, Hr. simpl.
  eexists. split; [done|]. by destruct (_ && _).
Qed.

Lemma insert_keeps_cancelled file (f : FileRecord → FileRecord) st rf x r :
  st !! file = Some rf →
  (cancel rf = true → cancel (f rf) = true) →
  st !! x = Some r →
  ∃ r', <[file := f rf]> st !! x = Some r'
        ∧ (cancel r = true → cancel r' = true).
Proof.
  intros Hf Hm Hr. destruct (decide (file = x)) as [->|Hne].
  - rewrite lookup_insert_eq. eexists. split; [done|].
    assert (r = rf) as -> by congruence. done.
  - rewrite lookup_insert_ne by done. eauto.
Qed.

(** X7.  Cancellation is kept: with a wrapped function that removes no
    file and revokes no cancellation, every file registered before a
    call of the guard is registered after it, and a file that was
    cancelled before is cancelled after, however the call ends. *)
Theorem cancel_is_kept func file self self' res x r :
  keeps_cancelled func →
  verify_proceed.wrapped func file self = (self', res) →
  status self !! x = Some r →
  ∃ r', status self' !! x = Some r' ∧ (cancel r = true → cancel r' = true).
Proof.
  intros Hk Hw Hx.
  pose proof (wrapped_skips func file self) as Hskip. rewrite Hw in Hskip.
  simpl in Hskip.
  destruct (stop_doing self) eqn:Hs; [rewrite Hskip by auto; eauto|].
  destruct (status self !! file) as [rf|] eqn:Hf;
    [|rewrite Hskip by auto; eauto].
  destruct (cancel rf) eqn:Hc; [rewrite Hskip by eauto; eauto|].
  clear Hskip.
  rewrite (wrapped_runs _ _ _ _ Hs Hf Hc) in Hw.
  destruct (func file (with_started file rf self)) as [self2 fres] eqn:Hfunc.
  assert (∃ r1, status (with_started file rf self) !! x = Some r1
                ∧ (cancel r = true → cancel r1 = true)) as (r1 & Hr1 & Hc1).
  { unfold with_started. simpl.
    by apply (insert_keeps_cancelled file (set_started true) _ rf). }
  destruct (Hk _ _ _ _ _ _ Hfunc Hr1) as (r2 & Hr2 & Hc2).
  destruct fres as [[[] msg]|e].
  - injection Hw as <- _. exists r2. tauto.
  - destruct (status self2 !! file) as [rf2|] eqn:Hf2.
    + injection Hw as <- _. unfold after_failure.
      destruct (insert_keeps_cancelled file (update_cancel msg) _ rf2 x r2
                  Hf2 (λ _, eq_refl) Hr2) as (r3 & Hr3 & Hc3).
      destruct (break_on_fail self2); simpl.
      * destruct (cancel_others_keeps_cancelled file
                    (verify_proceed.cancel_message file) _ x r3 Hr3)
          as (r4 & Hr4 & Hc4).
        exists r4. tauto.
      * exists r3. tauto.
    + injection Hw as <- _. exists r2. tauto.
  - injection Hw as <- _. exists r2. tauto.
Qed.

Lemma dom_cancel_others file msg st :
  dom (verify_proceed.cancel_others file msg st) = dom st.
Proof.
  apply set_eq. intros x. rewrite !elem_of_dom, lookup_cancel_others.
  by rewrite fmap_is_Some.
Qed.

(** X8.  The guard registers and removes no file: with a wrapped
    function that does neither, the files of [self.status] after a call
    are those before it, however the call ends; cancelling is a flag. *)
Theorem files_are_kept func file self self' res :
  keeps_files func →
  verify_proceed.wrapped func file self = (self', res) →
  dom (status self') = dom (status self).
Proof.
  intros Hk Hw.
  pose proof (wrapped_skips func file self) as Hskip. rewrite Hw in Hskip.
  simpl in Hskip.
  destruct (stop_doing self) eqn:Hs; [by rewrite Hskip by auto|].
  destruct (status self !! file) as [rf|] eqn:Hf;
    [|by rewrite Hskip by auto].
  destruct (cancel rf) eqn:Hc; [by rewrite Hskip by eauto|].
  clear Hskip.
  rewrite (wrapped_runs _ _ _ _ Hs Hf Hc) in Hw.
  destruct (func file (with_started file rf self)) as [self2 fres] eqn:Hfunc.
  apply Hk in Hfunc. unfold with_started in Hfunc. simpl in Hfunc.
  rewrite dom_insert_lookup_L in Hfunc by done.
  destruct fres as [[[] msg]|e]; try by injection Hw as <- _.
  destruct (status self2 !! file) as [rf2|] eqn:Hf2;
    [|by injection Hw as <- _].
  injection Hw as <- _. unfold after_failure.
  destruct (break_on_fail self2); simpl;
    rewrite ?dom_cancel_others, dom_insert_lookup_L; done.
Qed.

(** X9.  After a failure under break-on-fail the guard lets nothing
    through: on the file that failed and on a file that was neither
    started nor cancelled, a further call returns [False] and leaves
    [self] alone whatever function it wraps. *)
Theorem break_on_fail_closes func func' self a b ra rb msg self2 ra2 :
  a ≠ b →
  stop_doing self = false →
  status self !! a = Some ra → cancel ra = false →
  func a (with_started a ra self) = (self2, Return (false, msg)) →
  break_on_fail self2 = true →
  status self2 !! a = Some ra2 →
  status self2 !! b = Some rb → started rb = false → cancel rb = false →
  ∃ self3,
    verify_proceed.wrapped func a self = (self3, Return false)
    ∧ verify_proceed.wrapped func' a self3 = (self3, Return false)
    ∧ verify_proceed.wrapped func' b self3 = (self3, Return false).
Proof.
  intros Hab Hs Ha Hca Hf Hbof Ha2 Hb Hsb Hcb.
  rewrite (wrapped_runs _ _ _ _ Hs Ha Hca), Hf, Ha2.
  eexists. split; [done|]. unfold after_failure. rewrite Hbof.
  split.
  - apply (cancelled_file_closed func' a _ (update_cancel msg ra2)); [|done].
    simpl. by rewrite lookup_cancel_others, lookup_insert_eq.
  - apply (cancelled_file_closed func' b _
             (update_cancel (verify_proceed.cancel_message a) rb)); [|done].
    simpl. apply cancel_others_cancels; [by rewrite lookup_insert_ne|done..].
Qed.

End VerifyProceedFurther.

(** ** update_status *)

Section UpdateStatusFurther.
Context {X : Type}.
Implicit Types (func : string → M Handler (bool * string * list X)).
Implicit Types (self : Handler).

(** X10.  With a recognised name for which the record of the file has no
    entry, the wrapper raises "No status found for function ...", [self]
    as it was, whatever the wrapped function is. *)
Theorem missing_status_record_raises name func file self r :
  name ∈ update_status.whitelist →
  status self !! file = Some r →
  ops r !! name = None →
  update_status.wrapped name func file self
  = (self, Raise (Exception ("No status found for function " +:+ name +:+ "."))).
Proof.
  intros Hn Hr Ho. unfold update_status.wrapped.
  rewrite (bool_decide_true _ Hn). cbn [negb].
  unfold bind, get, subscript, ret. rewrite Hr, Ho.
  rewrite bool_decide_false; [done|]. by intros [? [=]].
Qed.

Lemma flags_of_on_op file name f self self' r x :
  on_op file name f self = (self', r) →
  flags_of self' x = flags_of self x.
Proof.
  unfold on_op, bind, get, subscript, raise, ret, modify, flags_of.
  destruct (status self !! file) as [rf|] eqn:Hf; [|by intros [= <- _]].
  destruct (ops rf !! name) as [o|]; intros [= <- _]; [|done].
  simpl. destruct (decide (file = x)) as [->|Hne].
  - by rewrite lookup_insert_eq, Hf.
  - by rewrite lookup_insert_ne.
Qed.

Lemma flags_of_on_file file name self self' r x :
  on_file file (set_failed_op name) self = (self', r) →
  flags_of self' x = flags_of self x.
Proof.
  unfold on_file, bind, get, subscript, raise, ret, modify, flags_of.
  destruct (status self !! file) as [rf|] eqn:Hf; intros [= <- _]; [|done].
  simpl. destruct (decide (file = x)) as [->|Hne].
  - by rewrite lookup_insert_eq, Hf.
  - by rewrite lookup_insert_ne.
Qed.

(** X11.  The wrapper decides no cancellation: with a wrapped function
    that writes none of the flags [cancel], [started] and [message],
    these flags are after a call what they were before it, for every
    file and however the call ends. *)
Theorem update_status_keeps_flags name func file self self' res x :
  keeps_flags func →
  update_status.wrapped name func file self = (self', res) →
  flags_of self' x = flags_of self x.
Proof.
  intros Hk. unfold update_status.wrapped.
  destruct (negb (bool_decide (name ∈ update_status.whitelist)));
    [by intros [= <- _]|].
  unfold bind at 1. unfold get at 1.
  unfold bind at 1. unfold subscript at 1.
  destruct (status self !! file) as [rf|]; [|by intros [= <- _]].
  unfold ret at 1.
  destruct (negb (bool_decide (is_Some (ops rf !! name))));
    [by intros [= <- _]|].
  unfold bind at 1.
  destruct (on_op file name update_started self) as [s1 r1] eqn:H1.
  apply (flags_of_on_op _ _ _ _ _ _ x) in H1.
  destruct r1 as [[]|e]; [|by intros [= <- _]].
  unfold bind at 1.
  destruct (func file s1) as [s2 r2] eqn:H2.
  apply (Hk _ _ _ _ x) in H2.
  destruct r2 as [[[ok msg] extra]|e]; [|intros [= <- _]; congruence].
  destruct ok; cbn [negb]; unfold bind at 1.
  - destruct (on_op file name update_done s2) as [s3 r3] eqn:H3.
    apply (flags_of_on_op _ _ _ _ _ _ x) in H3.
    destruct r3 as [[]|e]; intros [= <- _]; congruence.
  - destruct (on_file file (set_failed_op name) s2) as [s3 r3] eqn:H3.
    apply (flags_of_on_file _ _ _ _ _ x) in H3.
    destruct r3 as [[]|e]; intros [= <- _]; congruence.
Qed.

Lemma on_op_Some file name f self r o :
  status self !! file = Some r →
  ops r !! name = Some o →
  on_op file name f self
  = (set_status <[file := set_ops <[name := f o]> r]> self, Return tt).
Proof.
  intros Hr Ho. unfold on_op, bind, get, subscript, ret. by rewrite Hr, Ho.
Qed.

(** The wrapper on a file registered with the operation, by what the
    wrapped function does. *)
Lemma update_status_runs name func file self r o :
  name ∈ update_status.whitelist →
  status self !! file = Some r →
  ops r !! name = Some o →
  update_status.wrapped name func file self
  = match func file (set_status <[file := set_ops <[name := update_started o]> r]> self) with
    | (self2, Raise e) => (self2, Raise e)
    | (self2, Return (ok, msg, _)) =>
        match (if ok then on_op file name update_done self2
               else on_file file (set_failed_op name) self2) with
        | (self3, Return _) => (self3, Return (ok, msg))
        | (self3, Raise e) => (self3, Raise e)
        end
    end.
Proof.
  intros Hn Hr Ho. unfold update_status.wrapped.
  rewrite (bool_decide_true _ Hn). cbn [negb].
  unfold bind at 1. unfold get at 1.
  unfold bind at 1. unfold subscript at 1. rewrite Hr. unfold ret at 1.
  rewrite bool_decide_true by (rewrite Ho; eauto). cbn [negb].
  unfold bind at 1. rewrite (on_op_Some _ _ _ _ _ _ Hr Ho).
  unfold bind at 1.
  destruct (func file _) as [self2 [[[[] msg] extra]|e]]; [| |done];
    cbn [negb]; unfold bind at 1.
  - by destruct (on_op file name update_done self2) as [s3 [[]|e]].
  - by destruct (on_file file (set_failed_op name) self2) as [s3 [[]|e]].
Qed.

(** X12.  The two guards stacked, [verify_proceed] outside and
    [update_status] inside, around a function that returns
    [(ok, msg, ...)] and leaves [self] alone, on a file that is
    registered with the operation and not cancelled.  The call returns
    [ok].  On success the record of the file has [started = True], is
    not cancelled, and the operation has [started = True] and
    [done = True]; message and [failed_op] are as they were.  On failure
    the record has [started = True], [cancel = True], the message [msg]
    and [failed_op] the name of the operation, and the operation has
    [started = True] and [done] as it was. *)
Theorem stacked_guards name func file self r o ok msg extra :
  name ∈ update_status.whitelist →
  stop_doing self = false →
  status self !! file = Some r → cancel r = false →
  ops r !! name = Some o →
  (∀ s, func file s = (s, Return (ok, msg, extra))) →
  ∃ self',
    verify_proceed.wrapped (update_status.wrapped name func) file self
    = (self', Return ok)
    ∧ status self' !! file
      = Some (if ok
              then {| cancel := false; started := true;
                      message := message r; failed_op := failed_op r;
                      ops := <[name := {| op_started := true;
                                          op_done := true |}]> (ops r) |}
              else {| cancel := true; started := true;
                      message := msg; failed_op := Some name;
                      ops := <[name := {| op_started := true;
                                          op_done := op_done o |}]> (ops r) |}).
Proof.
  intros Hn Hs Hr Hc Ho Hf.
  rewrite (wrapped_runs _ _ _ _ Hs Hr Hc).
  assert (status (with_started file r self) !! file = Some (set_started true r))
    as Hr1 by apply lookup_insert_eq.
  rewrite (update_status_runs _ _ _ _ _ o Hn Hr1 Ho), Hf.
  set (r1 := set_ops <[name := update_started o]> (set_started true r)).
  set (s1 := set_status <[file := r1]> (with_started file r self)).
  assert (status s1 !! file = Some r1) as Hs1 by apply lookup_insert_eq.
  assert (ops r1 !! name = Some (update_started o)) as Ho1
    by apply lookup_insert_eq.
  destruct ok.
  - rewrite (on_op_Some _ _ _ _ _ _ Hs1 Ho1).
    eexists. split; [done|]. cbn [status set_status].
    rewrite lookup_insert_eq. unfold r1, set_ops, set_started. simpl.
    by rewrite insert_insert_eq, Hc.
  - rewrite (on_file_Some _ _ _ _ Hs1). cbn [status set_status].
    rewrite lookup_insert_eq.
    eexists. split; [done|]. unfold after_failure.
    destruct (break_on_fail _); cbn [status set_status].
    + by rewrite lookup_cancel_others, lookup_insert_eq.
    + by rewrite lookup_insert_eq.
Qed.

End UpdateStatusFurther.

(** ** connect_cloud *)

Section ConnectCloudFurther.
Import connect_cloud.
Context {Session Resource Args V : Type}.
Implicit Types (boto : boto3 Session Resource) (self : Connector Resource).
Implicit Types (func : Args → M (Connector Resource) V).

(** X13.  The guard does not connect twice: after a call in which the
    connection attempt raised a boto3 or botocore error, [self.keys] is
    [None], and a further call in which [Session()] returns raises
    [TypeError] at [self.keys["access_key"]], whatever is wrapped and
    whatever the service would answer; [self] stays as the first call
    left it. *)
Theorem reconnect_after_failure_raises boto boto' func func' args args'
    self self1 err session :
  try_body boto self = (self1, Raise err) →
  is_connection_error err = true →
  new_session boto' = Return session →
  init_resource boto' func' args' (init_resource boto func args self).1
  = ((init_resource boto func args self).1,
     Raise (TypeError "'NoneType' object is not subscriptable")).
Proof.
  intros H Herr Hs. unfold init_resource at 2 3. rewrite H.
  assert (∀ s : Connector Resource, keys s = None →
            init_resource boto' func' args' s
            = (s, Raise (TypeError "'NoneType' object is not subscriptable")))
    as Hnone.
  { intros s Hk. unfold init_resource, try_body, bind, get, key_of, raise.
    by rewrite Hs, Hk. }
  destruct err; try done; by apply Hnone.
Qed.

(** X14.  Keys without an entry ["access_key"] or ["secret_key"]: when
    [Session()] returns, the guard raises [KeyError] on the missing
    entry, [self] as it was; the service is not asked for a resource and
    the wrapped function is not called. *)
Theorem missing_key_raises boto func args self session ks key :
  new_session boto = Return session →
  keys self = Some ks →
  (key = "access_key" ∧ ks !! "access_key" = None)
  ∨ (key = "secret_key" ∧ is_Some (ks !! "access_key")
     ∧ ks !! "secret_key" = None) →
  init_resource boto func args self = (self, Raise (KeyError key)).
Proof.
  intros Hs Hk H.
  unfold init_resource, try_body, bind, get, key_of, subscript, raise, ret.
  rewrite Hs, Hk.
  destruct H as [[-> ->]|(-> & [ak ->] & ->)]; done.
Qed.

End ConnectCloudFurther.

(** ** subpath_required *)

Section SubpathFurther.
Import subpath_required.
Context {Path FS V : Type} {pathlib : Pathlib Path FS}.
Implicit Types (func : string → M (World Path FS) V) (w : World Path FS).

(** X15.  A file that [self.filehandler.data] does not hold, or whose
    entry has no ["subpath"], makes the guard raise [KeyError] on the
    missing key before it looks at the file system: the world is as it
    was, nothing is created and the wrapped function is not called. *)
Theorem unknown_subpath_raises func file w :
  (data (filehandler w) !! file = None →
   check_and_create func file w = (w, Raise (KeyError file)))
  ∧ (∀ file_info,
       data (filehandler w) !! file = Some file_info →
       file_info !! "subpath" = None →
       check_and_create func file w = (w, Raise (KeyError "subpath"))).
Proof.
  unfold check_and_create, full_subpath_of, bind, get, subscript, raise, ret.
  split; [by intros ->|]. by intros file_info -> ->.
Qed.

(** X16.  Whenever the guard comes back with the value of the wrapped
    function, the function was called in a world in which [exists()]
    answers [True] for the path, with [self.filehandler] as at the start
    of the call.  That the path is a directory is not checked: the guard
    asks [exists()] only. *)
Theorem wrapped_function_finds_directory func file w w1 v :
  check_and_create func file w = (w1, Return (inr v)) →
  ∃ p w0, full_subpath_of file w = (w, Return p)
          ∧ filehandler w0 = filehandler w
          ∧ path_exists p (fs w0) = Return true
          ∧ func file w0 = (w1, Return v).
Proof.
  intros H. apply check_and_create_ran in H as (p & w0 & Hp & H).
  exists p, w0. split; [|done]. by rewrite full_subpath_of_reads, Hp.
Qed.

End SubpathFurther.

(** ** The further properties at sample inputs *)

Lemma returning_keeps_cancelled (res : bool * string) :
  keeps_cancelled (returning res).
Proof. intros file self self' r x rx [= <- _] Hx. eauto. Qed.

Lemma returning_keeps_files (res : bool * string) : keeps_files (returning res).
Proof. by intros file self self' r [= <- _]. Qed.

Lemma returning_keeps_flags {X} (res : bool * string * list X) :
  keeps_flags (returning res).
Proof. by intros file self self' r x [= <- _]. Qed.

Lemma stop_doing_skips_witness :
  verify_proceed.wrapped (returning (true, "")) "zzz" (stopped_handler ["a"])
  = (stopped_handler ["a"], Return false).
Proof.
  apply (stop_doing_skips (returning (true, "")) "zzz" (stopped_handler ["a"])).
  reflexivity.
Defined.

Lemma unregistered_file_raises_witness :
  verify_proceed.wrapped (returning (true, "")) "zzz" (new_handler true ["a"])
  = (new_handler true ["a"], Raise (KeyError "zzz")).
Proof.
  apply (unregistered_file_raises (returning (true, "")) "zzz"
           (new_handler true ["a"])).
  - reflexivity.
  - vm_compute. reflexivity.
Defined.


Lemma cancel_is_kept_witness :
  ∃ r', status (verify_proceed.wrapped (returning (false, "boom")) "a"
                  (set_status <["b" := update_cancel "old" new_record]>
                     (new_handler true ["a"; "b"]))).1 !! "b" = Some r'
        ∧ (cancel (update_cancel "old" new_record) = true → cancel r' = true).
Proof.
  apply (cancel_is_kept (returning (false, "boom")) "a"
           (set_status <["b" := update_cancel "old" new_record]>
              (new_handler true ["a"; "b"]))
           _ (verify_proceed.wrapped (returning (false, "boom")) "a"
                (set_status <["b" := update_cancel "old" new_record]>
                   (new_handler true ["a"; "b"]))).2
           "b" (update_cancel "old" new_record)).
  - apply returning_keeps_cancelled.
  - apply surjective_pairing.
  - vm_compute. reflexivity.
Defined.

Lemma files_are_kept_witness :
  dom (status (verify_proceed.wrapped (returning (false, "boom")) "a"
                 (new_handler true ["a"; "b"])).1)
  = dom (status (new_handler true ["a"; "b"])).
Proof.
  apply (files_are_kept (returning (false, "boom")) "a"
           (new_handler true ["a"; "b"]) _
           (verify_proceed.wrapped (returning (false, "boom")) "a"
              (new_handler true ["a"; "b"])).2).
  - apply returning_keeps_files.
  - apply surjective_pairing.
Defined.

Lemma break_on_fail_closes_witness :
  ∃ self3,
    verify_proceed.wrapped (returning (false, "boom")) "a"
      (new_handler true ["a"; "b"]) = (self3, Return false)
    ∧ verify_proceed.wrapped (returning (true, "")) "a" self3
      = (self3, Return false)
    ∧ verify_proceed.wrapped (returning (true, "")) "b" self3
      = (self3, Return false).
Proof.
  apply (break_on_fail_closes (returning (false, "boom")) (returning (true, ""))
           (new_handler true ["a"; "b"]) "a" "b" new_record new_record "boom"
           (with_started "a" new_record (new_handler true ["a"; "b"]))
           (set_started true new_record)).
  - discriminate.
  - reflexivity.
  - vm_compute. reflexivity.
  - reflexivity.
  - reflexivity.
  - reflexivity.
  - vm_compute. reflexivity.
  - vm_compute. reflexivity.
  - reflexivity.
  - reflexivity.
Defined.

Lemma missing_status_record_raises_witness :
  update_status.wrapped "put" (returning (true, "", @nil unit)) "a"
    (set_status <["a" := download_record]> (new_handler false ["a"]))
  = (set_status <["a" := download_record]> (new_handler false ["a"]),
     Raise (Exception "No status found for function put.")).
Proof.
  apply (missing_status_record_raises "put" (returning (true, "", @nil unit)) "a"
           (set_status <["a" := download_record]> (new_handler false ["a"]))
           download_record).
  - apply (bool_decide_unpack _). vm_compute. exact I.
  - vm_compute. reflexivity.
  - vm_compute. reflexivity.
Defined.

Lemma update_status_keeps_flags_witness :
  flags_of (update_status.wrapped "put" (returning (false, "boom", @nil unit))
              "a" (new_handler false ["a"; "b"])).1 "a"
  = flags_of (new_handler false ["a"; "b"]) "a".
Proof.
  apply (update_status_keeps_flags "put" (returning (false, "boom", @nil unit))
           "a" (new_handler false ["a"; "b"]) _
           (update_status.wrapped "put" (returning (false, "boom", @nil unit))
              "a" (new_handler false ["a"; "b"])).2 "a").
  - apply returning_keeps_flags.
  - apply surjective_pairing.
Defined.

Lemma stacked_guards_witness :
  ∃ self',
    verify_proceed.wrapped
      (update_status.wrapped "put" (returning (false, "boom", @nil unit)))
      "a" (new_handler false ["a"]) = (self', Return false)
    ∧ status self' !! "a"
      = Some {| cancel := true; started := true; message := "boom";
                failed_op := Some "put";
                ops := <["put" := {| op_started := true; op_done := false |}]>
                         (ops new_record) |}.
Proof.
  apply (stacked_guards "put" (returning (false, "boom", @nil unit)) "a"
           (new_handler false ["a"]) new_record new_op false "boom" []).
  - apply (bool_decide_unpack _). vm_compute. exact I.
  - reflexivity.
  - vm_compute. reflexivity.
  - reflexivity.
  - vm_compute. reflexivity.
  - reflexivity.
Defined.

Lemma reconnect_after_failure_raises_witness :
  connect_cloud.init_resource sample_boto (λ _ : unit, ret (true, "")) tt
    (connect_cloud.init_resource sample_boto (λ _ : unit, ret (true, "")) tt
       (sample_connector None)).1
  = ((connect_cloud.init_resource sample_boto (λ _ : unit, ret (true, "")) tt
        (sample_connector None)).1,
     Raise (TypeError "'NoneType' object is not subscriptable")).
Proof.
  apply (reconnect_after_failure_raises sample_boto sample_boto
           (λ _ : unit, ret (true, "")) (λ _ : unit, ret (true, "")) tt tt
           (sample_connector None) (sample_connector None)
           (BotoCoreError "Invalid endpoint: None") 1%nat).
  - vm_compute. reflexivity.
  - reflexivity.
  - reflexivity.
Defined.

Lemma missing_key_raises_witness :
  connect_cloud.init_resource sample_boto (λ _ : unit, ret (true, "")) tt
    half_keyed_connector
  = (half_keyed_connector, Raise (KeyError "secret_key")).
Proof.
  apply (missing_key_raises sample_boto (λ _ : unit, ret (true, "")) tt
           half_keyed_connector 1%nat
           (list_to_map [("access_key", "AK")]) "secret_key").
  - reflexivity.
  - reflexivity.
  - right. split; [reflexivity|]. split; [by eexists | vm_compute; reflexivity].
Defined.

Lemma unknown_subpath_raises_witness :
  subpath_required.check_and_create (pathlib := tree_pathlib) done_op "g.txt"
    (sample_world empty_tree)
  = (sample_world empty_tree, Raise (KeyError "g.txt")).
Proof.
  apply (proj1 (unknown_subpath_raises (pathlib := tree_pathlib) done_op "g.txt"
                  (sample_world empty_tree))).
  vm_compute. reflexivity.
Defined.

Lemma wrapped_function_finds_directory_witness :
  ∃ p w0,
    subpath_required.full_subpath_of (pathlib := tree_pathlib) "f.txt"
      (sample_world empty_tree) = (sample_world empty_tree, Return p)
    ∧ subpath_required.filehandler w0
      = subpath_required.filehandler (sample_world empty_tree)
    ∧ subpath_required.path_exists (Pathlib := tree_pathlib) p
        (subpath_required.fs w0) = Return true
    ∧ done_op "f.txt" w0 = (sample_world made_tree, Return (true, "done")).
Proof.
  apply (wrapped_function_finds_directory (pathlib := tree_pathlib) done_op
           "f.txt" (sample_world empty_tree) (sample_world made_tree)
           (true, "done")).
  vm_compute. reflexivity.
Defined.

(** * data_lister *)

(** ** Stable sorting *)

Section StableSort.
Import data_lister.
Context {A K : Type} (lt : K → K → option bool).
Implicit Types (x y : K * A) (l s : list (K * A)) (R : relation A).

Local Notation "a ≺ b" := (lt a b = Some true) (at level 70).

Lemma insert_perm x s : insert lt x s ≡ₚ x :: s.
Proof.
  induction s as [|y s IH]; simpl; [done|].
  case_bool_decide; [|done]. by rewrite IH, Permutation_swap.
Qed.

Lemma stable_sort_perm l : stable_sort lt l ≡ₚ l.
Proof.
  induction l as [|x l IH]; simpl; [done|]. by rewrite insert_perm, IH.
Qed.





End StableSort.

(** ** sorted *)

Section SortedProperties.
Import data_lister.
Context {A K : Type} (lt : K → K → option bool).
Implicit Types (l : list A) (ks : list K) (key : A → outcome K).

Local Notation "a ≺ b" := (lt a b = Some true) (at level 70).

Lemma keys_of_Forall2 key l ks :
  keys_of key l = Returns ks → Forall2 (λ x k, key x = Returns k) l ks.
Proof.
  revert ks. induction l as [|x l IH]; simpl; intros ks.
  { intros [= <-]. constructor. }
  destruct (key x) as [k|e] eqn:Hk; [|done].
  destruct (keys_of key l) as [ks'|e]; [|done].
  intros [= <-]. constructor; auto.
Qed.





(** [sorted] returns the elements it was given. *)
Lemma sorted_perm l key reverse l' :
  sorted lt l key reverse = Returns l' → l' ≡ₚ l.
Proof.
  unfold sorted. destruct (keys_of key l) as [ks|e] eqn:Hks; [|done].
  destruct (comparable lt ks); [|done]. intros [= <-].
  apply keys_of_Forall2, Forall2_length in Hks.
  transitivity (zip ks l).*2; [|by rewrite snd_zip by lia].
  apply fmap_Permutation. destruct reverse.
  - by rewrite <- Permutation_rev, stable_sort_perm, <- Permutation_rev.
  - apply stable_sort_perm.
Qed.


End SortedProperties.

(** ** The order of the keys *)

Section KeyOrder.
Import data_lister.



Lemma string_ltb_irrefl s : String.ltb s s = false.
Proof.
  pose proof (proj2 (OrderedTypeEx.String_as_OT.cmp_eq s s) eq_refl) as H.
  unfold OrderedTypeEx.String_as_OT.cmp in H. unfold String.ltb.
  by rewrite H.
Qed.










End KeyOrder.

(** ** sort_projects *)

Section SortProjects.
Import data_lister.
Implicit Types (projects : list (gmap string value)) (t : gmap string value).






(** X17.  When [sort_projects] returns, it returns the projects it was
    given, each as often as it was there: none is lost, added or
    changed, whatever the option. *)
Theorem sort_projects_permutes show_usage projects sort_by l :
  sort_projects show_usage projects sort_by = Returns l →
  l ≡ₚ projects.
Proof.
  unfold sort_projects.
  destruct (sorted lt_value projects _ false) as [l1|e] eqn:H1; [|done].
  apply sorted_perm in H1.
  destruct (sorting_dict !! _) as [column|]; [|by intros [= <-]].
  destruct (bool_decide (column ≠ "")); [|by intros [= <-]].
  intros H2%sorted_perm. by rewrite H2.
Qed.


Lemma keys_of_missing projects :
  Exists (λ t, t !! "Project ID" = None) projects →
  keys_of (λ i, getitem i "Project ID") projects
  = Raises (KeyError "Project ID").
Proof.
  induction 1 as [t l H|t l H IH]; simpl; unfold getitem at 1.
  - by rewrite H.
  - destruct (t !! "Project ID"); [|done]. by rewrite IH.
Qed.

(** X19.  A project without the key "Project ID" makes [sort_projects]
    raise [KeyError] on it, whatever the option and the other
    projects. *)
Theorem project_without_id_raises show_usage projects sort_by :
  Exists (λ t, t !! "Project ID" = None) projects →
  sort_projects show_usage projects sort_by = Raises (KeyError "Project ID").
Proof.
  intros H. unfold sort_projects, sorted. by rewrite (keys_of_missing _ H).
Qed.

Lemma comparable_values ks :
  comparable lt_value ks = true →
  (length ks ≤ 1)%nat
  ∨ Forall (λ v, ∃ s, v = VStr s) ks
  ∨ Forall (λ v, ∃ n, v = VInt n) ks.
Proof.
  induction ks as [|k [|k2 rest] IH]; simpl; [left; lia|left; lia|].
  intros [Hk Hrest]%andb_true_iff. right.
  simpl in Hk. apply andb_true_iff in Hk as [Hk2 _].
  apply andb_true_iff in Hk2 as [Hk2 _]. apply bool_decide_eq_true in Hk2.
  destruct (IH Hrest) as [Hlen|[Hs|Hi]].
  - destruct rest; [|simpl in Hlen; lia].
    destruct k as [|s|m], k2 as [|t|n]; try (by destruct Hk2);
      [left|right]; repeat constructor; eauto.
  - left. constructor; [|done].
    apply Forall_cons in Hs as [[t ->] _].
    destruct k as [|s|m]; try (by destruct Hk2). eauto.
  - right. constructor; [|done].
    apply Forall_cons in Hi as [[n ->] _].
    destruct k as [|s|m]; try (by destruct Hk2). eauto.
Qed.

Lemma identifiers_Forall projects ks :
  Forall2 (λ t k, getitem t "Project ID" = Returns k) projects ks →
  ∀ P : value → Prop,
    Forall P ks →
    Forall (λ t, ∃ v, t !! "Project ID" = Some v ∧ P v) projects.
Proof.
  intros Hks P. induction Hks as [|t k ts ks' Ht _ IH]; intros HP;
    [constructor|].
  apply Forall_cons in HP as [Hk HP]. constructor; [|by apply IH].
  unfold getitem in Ht. destruct (t !! "Project ID"); [|done].
  injection Ht as ->. eauto.
Qed.

Lemma keys_of_present projects :
  Forall (λ t, is_Some (t !! "Project ID")) projects →
  ∃ ks, keys_of (λ i, getitem i "Project ID") projects = Returns ks.
Proof.
  induction 1 as [|t ts [v Hv] _ [ks IH]]; simpl; [by eexists|].
  unfold getitem at 1. rewrite Hv, IH. by eexists.
Qed.

(** X20.  Identifiers that have no order make [sort_projects] raise
    [TypeError] in its first sort, whatever the option: every project
    having an identifier, this is so when there are two projects or
    more and one identifier is [None], and when one identifier is a
    string and another one a number. *)
Theorem unordered_identifiers_raise show_usage projects sort_by :
  Forall (λ t, is_Some (t !! "Project ID")) projects →
  ((2 ≤ length projects)%nat ∧ Exists id_is_none projects)
  ∨ (Exists id_is_str projects ∧ Exists id_is_int projects) →
  sort_projects show_usage projects sort_by = Raises TypeError.
Proof.
  intros Hall H. unfold sort_projects, sorted.
  destruct (keys_of_present _ Hall) as [ks Hks]. rewrite Hks.
  apply keys_of_Forall2 in Hks.
  destruct (comparable lt_value ks) eqn:Hc; [exfalso|done].
  pose proof (identifiers_Forall projects ks Hks) as Hids.
  apply comparable_values in Hc.
  assert (∀ P : value → Prop,
            Forall P ks → ∀ t v, t ∈ projects → t !! "Project ID" = Some v → P v)
    as Hin.
  { intros P HP t v Ht Hv. apply Hids in HP. rewrite Forall_forall in HP.
    destruct (HP t Ht) as (v' & Hv' & HPv). congruence. }
  destruct H as [[Hlen (t & Ht & Hnone)%Exists_exists]
                |[(t & Ht & [s Hs])%Exists_exists (u & Hu & [n Hn])%Exists_exists]].
  - destruct Hc as [Hl|[Hs|Hi]].
    + rewrite <- (Forall2_length _ _ _ Hks) in Hl. lia.
    + by destruct (Hin _ Hs t VNone Ht Hnone).
    + by destruct (Hin _ Hi t VNone Ht Hnone).
  - destruct Hc as [Hl|[Hs'|Hi]].
    + rewrite <- (Forall2_length _ _ _ Hks) in Hl.
      destruct projects as [|t0 [|t1 ts]]; simpl in Hl; [|clear Hl|lia].
      * by apply elem_of_nil in Ht.
      * apply list_elem_of_singleton in Ht, Hu. subst. congruence.
    + by destruct (Hin _ Hs' u (VInt n) Hu Hn).
    + by destruct (Hin _ Hi t (VStr s) Ht Hs).
Qed.

End SortProjects.

Lemma sort_projects_permutes_witness : sample_listing ≡ₚ sample_projects.
Proof.
  apply (sort_projects_permutes false sample_projects "Updated" sample_listing).
  vm_compute. reflexivity.
Defined.


Lemma project_without_id_raises_witness :
  data_lister.sort_projects true
    [sample_project "a" data_lister.VNone; {[ "Title" := data_lister.VStr "t" ]}]
    "title"
  = data_lister.Raises (data_lister.KeyError "Project ID").
Proof.
  apply (project_without_id_raises true
           [sample_project "a" data_lister.VNone;
            {[ "Title" := data_lister.VStr "t" ]}] "title").
  apply Exists_cons_tl, Exists_cons_hd. vm_compute. reflexivity.
Defined.

Lemma unordered_identifiers_raise_witness :
  data_lister.sort_projects false
    [sample_project "a" data_lister.VNone;
     {[ "Project ID" := data_lister.VInt 3 ]}] "id"
  = data_lister.Raises data_lister.TypeError.
Proof.
  apply (unordered_identifiers_raise false
           [sample_project "a" data_lister.VNone;
            {[ "Project ID" := data_lister.VInt 3 ]}] "id").
  - repeat constructor; by eexists.
  - right. split.
    + apply Exists_cons_hd. by exists "a".
    + apply Exists_cons_tl, Exists_cons_hd. by exists 3.
Defined.

(** * removal_spinner *)

Section RemovalSpinner.
Import removal_spinner.
Context {Args : Type}.
Implicit Types (func : Args → M Remover string) (self : Remover).

(** X21.  Around a function whose name is none of [remove_all],
    [remove_file] and [remove_folder] the wrapper fails on the variable
    [description], which no branch has bound: the display is started and
    stopped, nothing else is shown, and the result is the same for every
    wrapped function, which is not called. *)
Theorem unnamed_removal_is_unbound name func args self :
  name ∉ ["remove_all"; "remove_file"; "remove_folder"] →
  create_and_remove_task name func args self
  = ({| project := project self; shown := shown self ++ [Start; Stop] |},
     UnboundLocalError "description").
Proof.
  intros H. unfold create_and_remove_task, description_of.
  rewrite !bool_decide_false;
    [|intros ->; apply H; rewrite !elem_of_cons; tauto..].
  unfold emit. simpl. by rewrite <- app_assoc.
Qed.

(** X22.  Around one of the three removals, a wrapped function that
    shows nothing itself: the message it returns is printed, last and
    after the display was stopped, and the wrapper returns [None]; when
    it raises, the exception goes on, the display is stopped and nothing
    is printed. *)
Theorem removal_prints_after_stop name func args self self' ending :
  name ∈ ["remove_all"; "remove_file"; "remove_folder"] →
  silent func →
  create_and_remove_task name func args self = (self', ending) →
  ∃ description,
    description_of name self = Some description
    ∧ match ending with
      | ReturnsNone =>
          ∃ message,
            shown self'
            = shown self ++ [Start; AddTask description; RemoveTask; Stop;
                             Print message]
            ∧ ∃ self1 self2, func args self1 = (self2, Return message)
      | Raised e =>
          shown self' = shown self ++ [Start; AddTask description; Stop]
          ∧ ∃ self1 self2, func args self1 = (self2, Raise e)
      | UnboundLocalError _ => False
      end.
Proof.
  intros Hn Hsilent. unfold create_and_remove_task.
  assert (∃ description, description_of name (emit Start self) = Some description
                         ∧ description_of name self = Some description)
    as (description & -> & Hd).
  { unfold description_of. simpl. repeat case_bool_decide; eauto.
    exfalso. rewrite !elem_of_cons in Hn.
    destruct Hn as [?|[?|[?|?%elem_of_nil]]]; done. }
  intros H. exists description. split; [done|]. revert H.
  destruct (func args _) as [self2 [message|e]] eqn:Hf;
    pose proof (Hsilent _ _ _ _ Hf) as Hs; simpl in Hs; intros [= <- <-].
  - exists message. simpl. rewrite Hs, <- !app_assoc. simpl. eauto.
  - simpl. rewrite Hs, <- !app_assoc. simpl. eauto.
Qed.

End RemovalSpinner.

Lemma answering_silent message : silent (answering message).
Proof. by intros args self self' res [= <- _]. Qed.

Lemma unnamed_removal_is_unbound_witness :
  removal_spinner.create_and_remove_task "remove_bucket" (answering "gone") tt
    {| removal_spinner.project := "p1"; removal_spinner.shown := [] |}
  = ({| removal_spinner.project := "p1";
        removal_spinner.shown := [removal_spinner.Start; removal_spinner.Stop] |},
     removal_spinner.UnboundLocalError "description").
Proof.
  apply (unnamed_removal_is_unbound "remove_bucket" (answering "gone") tt
           {| removal_spinner.project := "p1"; removal_spinner.shown := [] |}).
  apply (proj1 (bool_decide_eq_false _)). vm_compute. reflexivity.
Defined.

Lemma removal_prints_after_stop_witness :
  ∃ description,
    removal_spinner.description_of "remove_all"
      {| removal_spinner.project := "p1"; removal_spinner.shown := [] |}
    = Some description
    ∧ ∃ message,
        [removal_spinner.Start;
         removal_spinner.AddTask "Removing all files in project p1...";
         removal_spinner.RemoveTask; removal_spinner.Stop;
         removal_spinner.Print "gone"]
        = [] ++ [removal_spinner.Start; removal_spinner.AddTask description;
                 removal_spinner.RemoveTask; removal_spinner.Stop;
                 removal_spinner.Print message]
        ∧ ∃ self1 self2, answering "gone" tt self1 = (self2, Return message).
Proof.
  apply (removal_prints_after_stop "remove_all" (answering "gone") tt
           {| removal_spinner.project := "p1"; removal_spinner.shown := [] |}
           {| removal_spinner.project := "p1";
              removal_spinner.shown :=
                [removal_spinner.Start;
                 removal_spinner.AddTask "Removing all files in project p1...";
                 removal_spinner.RemoveTask; removal_spinner.Stop;
                 removal_spinner.Print "gone"] |}
           removal_spinner.ReturnsNone).
  - apply (bool_decide_unpack _). vm_compute. exact I.
  - apply answering_silent.
  - vm_compute. reflexivity.
Defined.
